(** * HttpTriggerProxyTS: the HTTP-to-Service-Bus proxy function

    A shallow embedding of [index.ts], [queueMessages.ts],
    [receiveMessages.ts] and [util.ts], and the properties of the send and
    receive paths.

    The handlers are sequential [async] functions: every broker call is
    awaited before the next statement runs, so an invocation is a
    deterministic program over a trace of events (broker calls, log lines,
    assignments to [context.res]) in a monad with exceptions.  The broker
    client library is outside the repository: its answers are supplied by a
    [Broker] record, which every theorem quantifies over.

    The embedding follows the handlers as split into [queueMessages.ts],
    [receiveMessages.ts] and [index.ts]; the single-file variant of the
    handler, which passes [count || 1] and lets GET fall through to the POST
    case, is not modelled. *)

From Stdlib Require Import ZArith Ascii DecimalString.
From Stdlib Require String.
From stdpp Require Import base option list gmap strings.

Set Warnings "-register-all".
Local Open Scope Z_scope.

(** ** JavaScript values *)

(** A parsed JSON value, as the host hands it over in [req.body].  Numbers
    are restricted to those written as integer literals: [JNum z] is the
    number the literal [z] parses to, the double nearest to [z].
    [undefined] is [None] in [option Json]. *)
Inductive Json : Type :=
| JNull
| JBool (b : bool)
| JNum (z : Z)
| JStr (s : string)
| JArr (xs : list Json)
| JObj (fields : list (string * Json)).

(** What can be thrown: a JavaScript error object (name and message), or a
    value raised by the broker client, known by its [String(e)]. *)
Inductive exn : Type :=
| JsError (name message : string)
| BrokerError (repr : string).

Inductive Outcome (A : Type) : Type :=
| Ok (a : A)
| Throw (e : exn).
Arguments Ok {A} a.
Arguments Throw {A} e.

(** [String(e)] of a thrown value ([Error.prototype.toString]). *)
Definition String_ (e : exn) : string :=
  match e with
  | JsError name message =>
      if String.eqb message "" then name
      else if String.eqb name "" then message
      else name +:+ ": " +:+ message
  | BrokerError repr => repr
  end.

(** [ToBoolean]: the test behind [!x] and [x ? a : b]. *)
Definition truthy (v : option Json) : bool :=
  match v with
  | None | Some JNull => false
  | Some (JBool b) => b
  | Some (JNum z) => negb (z =? 0)
  | Some (JStr s) => negb (String.eqb s "")
  | Some (JArr _) | Some (JObj _) => true
  end.

Definition truthyStr (v : option string) : bool :=
  match v with
  | None => false
  | Some s => negb (String.eqb s "")
  end.

Definition isArray (v : option Json) : bool :=
  match v with
  | Some (JArr _) => true
  | _ => false
  end.

(** Own property of an object literal; a later duplicate key wins. *)
Fixpoint getField (fields : list (string * Json)) (k : string) : option Json :=
  match fields with
  | [] => None
  | (k', v) :: rest =>
      match getField rest k with
      | Some w => Some w
      | None => if String.eqb k k' then Some v else None
      end
  end.

Definition chars (s : string) : list Json :=
  map (fun c => JStr (String c EmptyString)) (String.list_ascii_of_string s).

(** [v.k] for the property names the handlers read ([queueName],
    [messages], [length]) on a value that is neither [null] nor
    [undefined]. *)
Definition getProp (v : Json) (k : string) : option Json :=
  match v with
  | JObj fields => getField fields k
  | JArr xs => if String.eqb k "length" then Some (JNum (Z.of_nat (length xs))) else None
  | JStr s => if String.eqb k "length" then Some (JNum (Z.of_nat (String.length s))) else None
  | _ => None
  end.

Definition decimal (z : Z) : string := NilZero.string_of_int (Z.to_int z).

(** *** [String(x)] on a number

    An integer below 2^53 in magnitude is printed with all its digits.  A
    larger one is printed as the double it denotes: with the fewest digits
    that read back as that double, followed by zeros up to 21 digits and in
    exponent form beyond. *)

(** The double nearest to an integer [z >= 1], as a mantissa and an
    exponent: [m * 2 ^ e], with [2^52 <= m < 2^53] when [e > 0].  A tie goes
    to the even mantissa; [None] is [Infinity]. *)
Definition nearestDouble (z : Z) : option (Z * Z) :=
  let b := Z.log2 z in
  if b <=? 52 then Some (z, 0)
  else
    let e := b - 52 in
    let q := Z.shiftr z e in
    let r := z - Z.shiftl q e in
    let half := Z.shiftl 1 (e - 1) in
    let m := if (half <? r) || ((r =? half) && Z.odd q) then q + 1 else q in
    let '(m, e) := if m =? 2 ^ 53 then (2 ^ 52, e + 1) else (m, e) in
    if 1023 <? e + 52 then None else Some (m, e).

(** Whether the integer [c] reads back as the double [m * 2 ^ e], [e >= 1]:
    it lies within half a step of it, the ends included when [m] is even. *)
Definition readsBackAs (m e c : Z) : bool :=
  let v := m * 2 ^ e in
  let up := 2 ^ e in
  let down := if m =? 2 ^ 52 then 2 ^ (e - 1) else 2 ^ e in
  if Z.even m then (2 * v - down <=? 2 * c) && (2 * c <=? 2 * v + up)
  else (2 * v - down <? 2 * c) && (2 * c <? 2 * v + up).

(** The candidates [(s, n)] with [k] digits: [s * 10 ^ (n - k)] reads back
    as the double. *)
Definition candidates (m e k : Z) : list (Z * Z) :=
  let v := m * 2 ^ e in
  let d := Z.of_nat (String.length (decimal v)) in
  flat_map (fun n =>
    if n <? k then []
    else
      let p := 10 ^ (n - k) in
      List.filter (fun '(s, _) =>
                (10 ^ (k - 1) <=? s) && (s <? 10 ^ k) && readsBackAs m e (s * p))
             [(v / p, n); (v / p + 1, n)]) [d; d + 1].

(** Of the candidates, the one nearest to the double; of two equally near,
    the even one. *)
Definition nearest (v k : Z) (cs : list (Z * Z)) : option (Z * Z) :=
  fold_left (fun best c =>
    match best with
    | None => Some c
    | Some b =>
        let dist '(s, n) := Z.abs (s * 10 ^ (n - k) - v) in
        if dist c <? dist b then Some c
        else if (dist c =? dist b) && Z.even (fst c) then Some c
        else Some b
    end) cs None.

(** The shortest digit string that reads back as the double, with the
    number [n] of digits before the decimal point. *)
Definition shortestDigits (m e : Z) : Z * Z :=
  let v := m * 2 ^ e in
  let fix search (ks : list Z) : Z * Z :=
    match ks with
    | [] => (v, Z.of_nat (String.length (decimal v)))
    | k :: rest =>
        match nearest v k (candidates m e k) with
        | Some c => c
        | None => search rest
        end
    end in
  search (map Z.of_nat (seq 1 17)).

Definition zeros (n : Z) : string :=
  String.string_of_list_ascii (repeat "0"%char (Z.to_nat n)).

(** [Number::toString] of an integer-valued double from its digits. *)
Definition digitsText (s n : Z) : string :=
  let ds := decimal s in
  let k := Z.of_nat (String.length ds) in
  if n <=? 21 then ds +:+ zeros (n - k)
  else
    match ds with
    | String c rest =>
        String c (if String.eqb rest "" then "" else "." +:+ rest)
          +:+ "e+" +:+ decimal (n - 1)
    | EmptyString => ""
    end.

Definition positiveToString (z : Z) : string :=
  match nearestDouble z with
  | None => "Infinity"
  | Some (m, e) =>
      if e =? 0 then decimal z
      else let '(s, n) := shortestDigits m e in digitsText s n
  end.

(** [String(x)] for the number a JSON integer literal [z] denotes. *)
Definition numberToString (z : Z) : string :=
  if z =? 0 then "0"
  else if z <? 0 then "-" +:+ positiveToString (- z)
  else positiveToString z.

Definition cannotConvert : exn :=
  JsError "TypeError" "Cannot convert object to primitive value".

(** [String(v)], as a template literal [`${v}`] applies it.  An array is
    joined with commas, [null] elements being left empty.  An object prints
    as [[object Object]] through [Object.prototype.toString]; when it has a
    [toString] property of its own, which parsed JSON cannot make callable,
    the conversion throws. *)
Fixpoint ToString (v : Json) : Outcome string :=
  match v with
  | JNull => Ok "null"
  | JBool true => Ok "true"
  | JBool false => Ok "false"
  | JNum z => Ok (numberToString z)
  | JStr s => Ok s
  | JArr xs =>
      let elt x := match x with JNull => Ok "" | _ => ToString x end in
      (fix join (l : list Json) : Outcome string :=
         match l with
         | [] => Ok ""
         | [x] => elt x
         | x :: r =>
             match elt x, join r with
             | Ok a, Ok b => Ok (a +:+ "," +:+ b)
             | Throw e, _ => Throw e
             | Ok _, Throw e => Throw e
             end
         end) xs
  | JObj fields =>
      match getField fields "toString" with
      | Some _ => Throw cannotConvert
      | None => Ok "[object Object]"
      end
  end.

Definition template (v : option Json) : Outcome string :=
  match v with
  | None => Ok "undefined"
  | Some w => ToString w
  end.

(** [`${v.length}`]: the length of an array or of a string is below 2^32
    and is printed with all its digits. *)
Definition lengthText (v : option Json) : Outcome string :=
  match v with
  | None =>
      Throw (JsError "TypeError" "Cannot read properties of undefined (reading 'length')")
  | Some JNull =>
      Throw (JsError "TypeError" "Cannot read properties of null (reading 'length')")
  | Some (JArr xs) => Ok (decimal (Z.of_nat (length xs)))
  | Some (JStr s) => Ok (decimal (Z.of_nat (String.length s)))
  | Some w => template (getProp w "length")
  end.

(** The values [for (const x of v)] visits. *)
Definition forOf (v : option Json) : Outcome (list Json) :=
  match v with
  | Some (JArr xs) => Ok xs
  | Some (JStr s) => Ok (chars s)
  | _ => Throw (JsError "TypeError" "messages is not iterable")
  end.

(** *** [Number(s)] on a string

    The result is [NaN], an integer the model tracks exactly (magnitude at
    most 2^53), or some other number (a fraction, an exponent form, a large
    magnitude, an infinity) whose value the model does not track. *)
Inductive number : Type :=
| NaN
| Int (z : Z)
| Untracked.

Definition isWhiteSpace (c : ascii) : bool :=
  let n := nat_of_ascii c in
  ((9 <=? n) && (n <=? 13))%nat || (n =? 32)%nat.

Definition digitValue (base : Z) (c : ascii) : option Z :=
  let n := Z.of_nat (nat_of_ascii c) in
  let d :=
    if (48 <=? n) && (n <=? 57) then Some (n - 48)
    else if (97 <=? n) && (n <=? 102) then Some (n - 87)
    else if (65 <=? n) && (n <=? 70) then Some (n - 55)
    else None in
  match d with
  | Some x => if x <? base then Some x else None
  | None => None
  end.

Definition isDigit (c : ascii) : bool :=
  match digitValue 10 c with Some _ => true | None => false end.

Fixpoint dropWhile {A} (p : A -> bool) (l : list A) : list A :=
  match l with
  | [] => []
  | x :: r => if p x then dropWhile p r else l
  end.

Fixpoint span {A} (p : A -> bool) (l : list A) : list A * list A :=
  match l with
  | [] => ([], [])
  | x :: r => if p x then let '(a, b) := span p r in (x :: a, b) else ([], l)
  end.

Definition trim (l : list ascii) : list ascii :=
  rev (dropWhile isWhiteSpace (rev (dropWhile isWhiteSpace l))).

(** Value of a non-empty digit string in [base], [None] on a foreign
    character or on the empty string. *)
Definition digitsValue (base : Z) (l : list ascii) : option Z :=
  match l with
  | [] => None
  | _ => fold_left (fun acc c => match acc, digitValue base c with
                                | Some a, Some d => Some (a * base + d)
                                | _, _ => None
                                end) l (Some 0)
  end.

Definition tracked (z : Z) : number :=
  if Z.abs z <=? 2 ^ 53 then Int z else Untracked.

(** [ExponentPart], optional: [e] or [E], an optional sign, digits. *)
Definition exponentOk (l : list ascii) : bool :=
  match l with
  | [] => true
  | c :: r =>
      if (Ascii.eqb c "e" || Ascii.eqb c "E")%char then
        let r' := match r with
                  | s :: t => if (Ascii.eqb s "+" || Ascii.eqb s "-")%char then t else r
                  | [] => r
                  end in
        match r' with
        | [] => false
        | _ => forallb isDigit r'
        end
      else false
  end.

(** [StrUnsignedDecimalLiteral], with the sign already applied by the
    caller through [neg]. *)
Definition unsignedDecimal (neg : bool) (l : list ascii) : number :=
  if String.eqb (String.string_of_list_ascii l) "Infinity" then Untracked
  else
    let '(ip, r1) := span isDigit l in
    match r1 with
    | [] =>
        match digitsValue 10 ip with
        | Some v => tracked (if neg then - v else v)
        | None => NaN
        end
    | c :: r2 =>
        if Ascii.eqb c "."%char then
          let '(fp, r3) := span isDigit r2 in
          match ip, fp with
          | [], [] => NaN
          | _, _ => if exponentOk r3 then Untracked else NaN
          end
        else
          match ip with
          | [] => NaN
          | _ => if exponentOk r1 then Untracked else NaN
          end
    end.

Definition nonDecimal (base : Z) (l : list ascii) : number :=
  match digitsValue base l with
  | Some v => tracked v
  | None => NaN
  end.

(** [StringToNumber] on an ASCII string. *)
Definition Number (s : string) : number :=
  match trim (String.list_ascii_of_string s) with
  | [] => Int 0
  | c :: r =>
      if Ascii.eqb c "+"%char then unsignedDecimal false r
      else if Ascii.eqb c "-"%char then unsignedDecimal true r
      else if Ascii.eqb c "0"%char then
        match r with
        | p :: t =>
            if (Ascii.eqb p "x" || Ascii.eqb p "X")%char then nonDecimal 16 t
            else if (Ascii.eqb p "o" || Ascii.eqb p "O")%char then nonDecimal 8 t
            else if (Ascii.eqb p "b" || Ascii.eqb p "B")%char then nonDecimal 2 t
            else unsignedDecimal false (c :: r)
        | [] => Int 0
        end
      else unsignedDecimal false (c :: r)
  end.

(** ** Requests, messages and responses *)

(** [process.env], request headers and the query string are objects with
    string keys and string values. *)
Abbreviation Env := (gmap string string).
Abbreviation Headers := (gmap string string).
Abbreviation Query := (gmap string string).

(** [HttpRequest]: [method] may be [null], [body] may be [undefined]. *)
Record HttpRequest : Type := {
  req_method : option string;
  req_headers : Headers;
  req_query : Query;
  req_body : option Json
}.

Inductive MessageState : Type := active | deferred | scheduled.

(** [ServiceBusReceivedMessage]: the eighteen fields the receive path
    reads, and the delivery fields it leaves behind. *)
Record ServiceBusReceivedMessage : Type := {
  m_body : Json;
  m_contentType : option string;
  m_correlationId : option Json;
  m_deliveryCount : option Z;
  m_enqueuedSequenceNumber : option Z;
  m_enqueuedTimeUtc : option Z;
  m_expiresAtUtc : option Z;
  m_messageId : option Json;
  m_partitionKey : option string;
  m_replyTo : option string;
  m_replyToSessionId : option string;
  m_scheduledEnqueueTimeUtc : option Z;
  m_sequenceNumber : option Z;
  m_sessionId : option string;
  m_state : MessageState;
  m_subject : option string;
  m_timeToLive : option Z;
  m_to : option string;
  m_lockToken : option string;
  m_lockedUntilUtc : option Z;
  m_deadLetterReason : option string;
  m_applicationProperties : option Json
}.

(** [ReceiveResponseMessage] of [types/response.ts]. *)
Record ReceiveResponseMessage : Type := {
  body : Json;
  contentType : option string;
  correlationId : option Json;
  deliveryCount : option Z;
  enqueuedSequenceNumber : option Z;
  enqueuedTimeUtc : option Z;
  expiresAtUtc : option Z;
  messageId : option Json;
  partitionKey : option string;
  replyTo : option string;
  replyToSessionId : option string;
  scheduledEnqueueTimeUtc : option Z;
  sequenceNumber : option Z;
  sessionId : option string;
  state : MessageState;
  subject : option string;
  timeToLive : option Z;
  to : option string
}.

(** The [request] echo of a response body: [{ body, headers, method }] or
    [{ headers, method, query }]. *)
Inductive RequestEcho : Type :=
| EchoBody (b : option Json) (h : Headers) (m : option string)
| EchoQuery (h : Headers) (m : option string) (q : Query).

(** [QueueResponseBody | ReceiveResponseBody]. *)
Record ResponseBody : Type := {
  rb_status : Z;
  rb_message : option string;
  rb_messages : option (list ReceiveResponseMessage);
  rb_request : RequestEcho
}.

Record Response : Type := {
  res_status : Z;
  res_headers : Headers;
  res_body : ResponseBody
}.

(** ** util.ts *)

Definition defaultResponseHeaders : Headers :=
  {[ "Content-Type" := "application/json" ]}.

Definition createBadRequestResponse (req : HttpRequest) (message : string) : Response :=
  {| res_status := 400;
     res_headers := defaultResponseHeaders;
     res_body := {| rb_status := 400;
                    rb_message := Some message;
                    rb_messages := None;
                    rb_request := EchoBody (req_body req) (req_headers req) (req_method req) |} |}.

Definition createErrorResponse (req : HttpRequest) (message : string) : Response :=
  {| res_status := 500;
     res_headers := defaultResponseHeaders;
     res_body := {| rb_status := 500;
                    rb_message := Some message;
                    rb_messages := None;
                    rb_request := EchoBody (req_body req) (req_headers req) (req_method req) |} |}.

(** ** The broker client *)

(** [ServiceBusMessageBatch]: the capacity fixed when the batch was created,
    the size used so far, and the messages accepted, oldest first. *)
Record Batch : Type := {
  maxSizeInBytes : nat;
  sizeInBytes : nat;
  batchMessages : list Json
}.

Definition emptyBatch (capacity : nat) : Batch :=
  {| maxSizeInBytes := capacity; sizeInBytes := 0; batchMessages := [] |}.

(** Calls into [@azure/service-bus], in the order the handlers make them. *)
Inductive BrokerCall : Type :=
| NewServiceBusClient (connectionString : option string)
| CreateSender (queueName : option Json)
| CreateReceiver (queueName : option string)
| CreateMessageBatch
| SendMessages (b : Batch)
| SenderClose
| ReceiveMessages (maxMessageCount : number) (maxWaitTimeInMs : Z)
| CompleteMessage (m : ServiceBusReceivedMessage)
| ReceiverClose
| ClientClose.

Inductive LogEntry : Type :=
| LogRequestBody (m : option string) (b : option Json)
| LogRequestQuery (m : option string) (q : Query)
| LogMessages (ms : list ReceiveResponseMessage)
| LogResponse (r : Response).

(** What an invocation does, in order. *)
Inductive Event : Type :=
| Call (c : BrokerCall)
| Log (l : LogEntry)
| SetRes (r : Response).

Abbreviation Trace := (list Event).

(** The broker as the handlers see it.  Calls are numbered from 0 in the
    order they are made within an invocation; the [n]-th call throws when
    [faultAt n] says so.  [capacityAt n] is the capacity of the batch that
    call [n] creates, [messageSize] the encoded size by which
    [tryAddMessage] charges a message, and [deliver n count] the messages
    call [n] receives when asked for [count]. *)
Record Broker : Type := {
  faultAt : nat -> option string;
  capacityAt : nat -> nat;
  messageSize : Json -> nat;
  deliver : nat -> number -> list ServiceBusReceivedMessage
}.

Definition isCall (e : Event) : option BrokerCall :=
  match e with Call c => Some c | _ => None end.

Definition calls (tr : Trace) : list BrokerCall := omap isCall tr.

Definition sentBatch (c : BrokerCall) : option Batch :=
  match c with SendMessages b => Some b | _ => None end.

(** The batches handed to [sendMessages], in submission order. *)
Definition sentBatches (tr : Trace) : list Batch := omap sentBatch (calls tr).

Definition completed (c : BrokerCall) : option ServiceBusReceivedMessage :=
  match c with CompleteMessage m => Some m | _ => None end.

(** The messages handed to [completeMessage], in order. *)
Definition completedMessages (tr : Trace) : list ServiceBusReceivedMessage :=
  omap completed (calls tr).

Definition isSetRes (e : Event) : option Response :=
  match e with SetRes r => Some r | _ => None end.

(** [context.res] when the invocation ends: the last assignment. *)
Definition finalRes (tr : Trace) : option Response := last (omap isSetRes tr).

(** ** The invocation monad: a trace and exceptions *)

Definition M (A : Type) : Type := Trace -> Outcome A * Trace.

#[global] Instance M_ret : MRet M := fun A a tr => (Ok a, tr).
#[global] Instance M_bind : MBind M := fun A B f m tr =>
  match m tr with
  | (Ok a, tr') => f a tr'
  | (Throw e, tr') => (Throw e, tr')
  end.

Definition throw {A} (e : exn) : M A := fun tr => (Throw e, tr).

Definition lift {A} (o : Outcome A) : M A := fun tr => (o, tr).

Definition emit (e : Event) : M unit := fun tr => (Ok tt, tr ++ [e]).

Definition log (l : LogEntry) : M unit := emit (Log l).
Definition setRes (r : Response) : M unit := emit (SetRes r).

(** [try { body } catch (e) { handler } finally { fin }]: an exception of
    [fin] replaces the completion of the other two blocks. *)
Definition tryCatchFinally {A} (body : M A) (handler : exn -> M A) (fin : M unit) : M A :=
  fun tr =>
    let '(o, tr1) := match body tr with
                     | (Ok a, tr1) => (Ok a, tr1)
                     | (Throw e, tr1) => handler e tr1
                     end in
    match fin tr1 with
    | (Ok _, tr2) => (o, tr2)
    | (Throw e', tr2) => (Throw e', tr2)
    end.

(** [batch.tryAddMessage(message)] on a well-formed [ServiceBusMessage],
    by the client library's contract: the message is accepted when it still
    fits the capacity the batch was created with, and the batch is left as
    it was when it does not. *)
Definition tryAddMessage (size : Json -> nat) (b : Batch) (message : Json) : bool * Batch :=
  if (sizeInBytes b + size message <=? maxSizeInBytes b)%nat
  then (true, {| maxSizeInBytes := maxSizeInBytes b;
                 sizeInBytes := (sizeInBytes b + size message)%nat;
                 batchMessages := batchMessages b ++ [message] |})
  else (false, b).

Section Client.
Variable br : Broker.

(** A call into the client library: recorded, then answered or thrown. *)
Definition call {A} (c : BrokerCall) (answer : nat -> A) : M A := fun tr =>
  let n := length (calls tr) in
  match faultAt br n with
  | Some e => (Throw (BrokerError e), tr ++ [Call c])
  | None => (Ok (answer n), tr ++ [Call c])
  end.

Definition newServiceBusClient (connectionString : option string) : M unit :=
  call (NewServiceBusClient connectionString) (fun _ => tt).
Definition createSender (queueName : option Json) : M unit :=
  call (CreateSender queueName) (fun _ => tt).
Definition createReceiver (queueName : option string) : M unit :=
  call (CreateReceiver queueName) (fun _ => tt).
Definition createMessageBatch : M Batch :=
  call CreateMessageBatch (fun n => emptyBatch (capacityAt br n)).
Definition sendMessages (b : Batch) : M unit :=
  call (SendMessages b) (fun _ => tt).
Definition senderClose : M unit := call SenderClose (fun _ => tt).
Definition sbReceiveMessages (maxMessageCount : number) (maxWaitTimeInMs : Z)
  : M (list ServiceBusReceivedMessage) :=
  call (ReceiveMessages maxMessageCount maxWaitTimeInMs)
       (fun n => deliver br n maxMessageCount).
Definition completeMessage (m : ServiceBusReceivedMessage) : M unit :=
  call (CompleteMessage m) (fun _ => tt).
Definition receiverClose : M unit := call ReceiverClose (fun _ => tt).
Definition clientClose : M unit := call ClientClose (fun _ => tt).
End Client.

(** ** queueMessages.ts, receiveMessages.ts and index.ts *)

(** [const { queueName, messages } = body]: destructuring [undefined] or
    [null] throws. *)
Definition destructureBody (b : option Json) : Outcome (option Json * option Json) :=
  match b with
  | None | Some JNull =>
      Throw (JsError "TypeError" "Cannot destructure property 'queueName' of 'body'")
  | Some v => Ok (getProp v "queueName", getProp v "messages")
  end.

(** [Number(count)], with [Number(undefined)] being [NaN]. *)
Definition NumberOf (count : option string) : number :=
  match count with
  | Some s => Number s
  | None => NaN
  end.

(** [count ? Number(count) : 1], the first argument of the receive call. *)
Definition requestedCount (count : option string) : number :=
  if truthyStr count then NumberOf count else Int 1.

(** The object pushed onto [messages] for a received message. *)
Definition project (message : ServiceBusReceivedMessage) : ReceiveResponseMessage :=
  {| body := m_body message;
     contentType := m_contentType message;
     correlationId := m_correlationId message;
     deliveryCount := m_deliveryCount message;
     enqueuedSequenceNumber := m_enqueuedSequenceNumber message;
     enqueuedTimeUtc := m_enqueuedTimeUtc message;
     expiresAtUtc := m_expiresAtUtc message;
     messageId := m_messageId message;
     partitionKey := m_partitionKey message;
     replyTo := m_replyTo message;
     replyToSessionId := m_replyToSessionId message;
     scheduledEnqueueTimeUtc := m_scheduledEnqueueTimeUtc message;
     sequenceNumber := m_sequenceNumber message;
     sessionId := m_sessionId message;
     state := m_state message;
     subject := m_subject message;
     timeToLive := m_timeToLive message;
     to := m_to message |}.

Definition sendEnvName : string := "SERVICEBUS_CONNECTION_STRING".
Definition receiveEnvName : string := "SERVICE_BUS_CONNECTION_STRING".

(** [`Sent ${messages.length} messages to queue: '${queueName}'`] *)
Definition sentMessage (queueName messages : option Json) : Outcome string :=
  match lengthText messages with
  | Ok count =>
      match template queueName with
      | Ok name => Ok ("Sent " +:+ count +:+ " messages to queue: '" +:+ name +:+ "'")
      | Throw e => Throw e
      end
  | Throw e => Throw e
  end.

Definition queueOkResponse (req : HttpRequest) (message : string) : Response :=
  {| res_status := 200;
     res_headers := defaultResponseHeaders;
     res_body :=
       {| rb_status := 200;
          rb_message := Some message;
          rb_messages := None;
          rb_request := EchoBody (req_body req) (req_headers req) (req_method req) |} |}.

Definition receiveOkResponse (req : HttpRequest) (messages : list ReceiveResponseMessage)
  : Response :=
  {| res_status := 200;
     res_headers := defaultResponseHeaders;
     res_body :=
       {| rb_status := 200;
          rb_message := None;
          rb_messages := Some messages;
          rb_request := EchoQuery (req_headers req) (req_method req) (req_query req) |} |}.

(** [`Method '${method} not allowed!`] *)
Definition notAllowedMessage (method : option string) : string :=
  "Method '" +:+ match method with Some m => m | None => "null" end +:+ " not allowed!".

Definition notAllowedResponse (req : HttpRequest) : Response :=
  {| res_status := 405;
     res_headers := defaultResponseHeaders;
     res_body :=
       {| rb_status := 405;
          rb_message := Some (notAllowedMessage (req_method req));
          rb_messages := None;
          rb_request := EchoBody (req_body req) (req_headers req) (req_method req) |} |}.

(** Log a failure response, store it in [context.res], return [false]. *)
Definition reject (r : Response) : M bool :=
  log (LogResponse r);; setRes r;; mret false.

Definition validateQueueRequest (env : Env) (req : HttpRequest) : M bool :=
  '(queueName, messages) ← lift (destructureBody (req_body req));
  if negb (truthyStr (env !! sendEnvName)) then
    reject (createErrorResponse req
              "'SERVICEBUS_CONNECTION_STRING' is missing from environment variables!")
  else if negb (truthy queueName) then
    reject (createBadRequestResponse req "Missing 'queueName' from request body!")
  else if negb (truthy messages) then
    reject (createBadRequestResponse req "Missing 'messages' from request body!")
  else if negb (isArray messages) then
    reject (createBadRequestResponse req "'messages' is not an array!")
  else mret true.

Definition validateReceiveRequest (env : Env) (req : HttpRequest) : M bool :=
  let queueName := req_query req !! "queueName" in
  if negb (truthyStr (env !! receiveEnvName)) then
    reject (createErrorResponse req
              "'SERVICE_BUS_CONNECTION_STRING' is missing from environment variables!")
  else if negb (truthyStr queueName) then
    reject (createBadRequestResponse req "Missing 'queueName' from request query!")
  else mret true.

(** The [catch (e)] block of both handlers. *)
Definition catchBlock (req : HttpRequest) (e : exn) : M unit :=
  let errorResponse := createErrorResponse req (String_ e) in
  log (LogResponse errorResponse);; setRes errorResponse.

Section Handlers.
Variable br : Broker.

(** The [for (const message of messages)] loop of the send path, from
    the current [messageBatch] on. *)
Fixpoint forEachMessage (messageBatch : Batch) (messages : list Json) : M Batch :=
  match messages with
  | [] => mret messageBatch
  | message :: rest =>
      match tryAddMessage (messageSize br) messageBatch message with
      | (true, added) => forEachMessage added rest
      | (false, _) =>
          sendMessages br messageBatch;;
          fresh ← createMessageBatch br;
          match tryAddMessage (messageSize br) fresh message with
          | (true, added) => forEachMessage added rest
          | (false, _) => throw (JsError "Error" "Message too big to fit in a batch")
          end
      end
  end.

(** The [try] block of [queueMessages]. *)
Definition queueTry (req : HttpRequest) (queueName messages : option Json) : M unit :=
  messageBatch ← createMessageBatch br;
  items ← lift (forOf messages);
  messageBatch ← forEachMessage messageBatch items;
  sendMessages br messageBatch;;
  message ← lift (sentMessage queueName messages);
  let response := queueOkResponse req message in
  setRes response;;
  log (LogResponse response);;
  senderClose br.

Definition queueMessages (env : Env) (req : HttpRequest) : M unit :=
  log (LogRequestBody (req_method req) (req_body req));;
  valid ← validateQueueRequest env req;
  if negb valid then mret tt
  else
    '(queueName, messages) ← lift (destructureBody (req_body req));
    newServiceBusClient br (env !! sendEnvName);;
    createSender br queueName;;
    tryCatchFinally (queueTry req queueName messages) (catchBlock req) (clientClose br).

(** The [for (const message of receivedMessages)] loop of the receive
    path: complete, then push. *)
Fixpoint forEachReceived (received : list ServiceBusReceivedMessage)
         (messages : list ReceiveResponseMessage) : M (list ReceiveResponseMessage) :=
  match received with
  | [] => mret messages
  | message :: rest =>
      completeMessage br message;;
      forEachReceived rest (messages ++ [project message])
  end.

(** The [try] block of [receiveMessages]. *)
Definition receiveTry (req : HttpRequest) (count : option string) : M unit :=
  receivedMessages ← sbReceiveMessages br (requestedCount count) 20000;
  messages ← forEachReceived receivedMessages [];
  log (LogMessages messages);;
  let response := receiveOkResponse req messages in
  setRes response;;
  log (LogResponse response);;
  receiverClose br.

Definition receiveMessages (env : Env) (req : HttpRequest) : M unit :=
  log (LogRequestQuery (req_method req) (req_query req));;
  valid ← validateReceiveRequest env req;
  if negb valid then mret tt
  else
    let queueName := req_query req !! "queueName" in
    let count := req_query req !! "count" in
    newServiceBusClient br (env !! receiveEnvName);;
    createReceiver br queueName;;
    tryCatchFinally (receiveTry req count) (catchBlock req) (clientClose br).

(** [switch (method)] of [index.ts]. *)
Definition httpTrigger (env : Env) (req : HttpRequest) : M unit :=
  match req_method req with
  | Some m =>
      if String.eqb m "GET" then receiveMessages env req
      else if String.eqb m "POST" then queueMessages env req
      else
        let response := notAllowedResponse req in
        log (LogResponse response);; setRes response
  | None =>
      let response := notAllowedResponse req in
      log (LogResponse response);; setRes response
  end.
End Handlers.

(** An invocation starts from the empty trace. *)
Definition run {A} (m : M A) : Outcome A * Trace := m [].

(** * Specification vocabulary *)

(** ** Brokers and requests *)

(** A broker none of whose calls throws. *)
Definition noFaults (br : Broker) : Prop := forall n, faultAt br n = None.

(** A request the send path accepts: a body with a truthy [queueName] and
    an array of [messages], and the connection string in the environment. *)
Definition validQueueRequest (env : Env) (req : HttpRequest)
           (queueName : option Json) (items : list Json) : Prop :=
  destructureBody (req_body req) = Ok (queueName, Some (JArr items)) /\
  truthyStr (env !! sendEnvName) = true /\
  truthy queueName = true.

(** A request the receive path accepts. *)
Definition validReceiveRequest (env : Env) (req : HttpRequest) : Prop :=
  truthyStr (env !! receiveEnvName) = true /\
  truthyStr (req_query req !! "queueName") = true.

(** The trace when the [try] block of the send path is entered. *)
Definition queueSetup (env : Env) (req : HttpRequest) (queueName : option Json) : Trace :=
  [Log (LogRequestBody (req_method req) (req_body req));
   Call (NewServiceBusClient (env !! sendEnvName));
   Call (CreateSender queueName)].

(** The trace when the [try] block of the receive path is entered. *)
Definition receiveSetup (env : Env) (req : HttpRequest) : Trace :=
  [Log (LogRequestQuery (req_method req) (req_query req));
   Call (NewServiceBusClient (env !! receiveEnvName));
   Call (CreateReceiver (req_query req !! "queueName"))].

(** ** Batches and traces *)

(** The events of packing: creating a batch and sending one. *)
Definition packingEvent (e : Event) : Prop :=
  e = Call CreateMessageBatch \/ exists b, e = Call (SendMessages b).

(** Total encoded size of the messages in a batch. *)
Definition batchLoad (br : Broker) (b : Batch) : nat :=
  sum_list_with (messageSize br) (batchMessages b).

(** The batch was handed out by a [createMessageBatch] call of this trace,
    with the capacity the broker reported at that call. *)
Definition createdIn (br : Broker) (tr : Trace) (b : Batch) : Prop :=
  exists k, calls tr !! k = Some CreateMessageBatch /\ maxSizeInBytes b = capacityAt br k.

(** The messages of the batch fit the capacity it was created with. *)
Definition withinCapacity (br : Broker) (tr : Trace) (b : Batch) : Prop :=
  createdIn br tr b /\ (batchLoad br b <= maxSizeInBytes b)%nat.

Definition goodBatch (br : Broker) (tr : Trace) (b : Batch) : Prop :=
  sizeInBytes b = batchLoad br b /\ withinCapacity br tr b.

(** No batch handed to [sendMessages] in this trace is empty. *)
Definition noEmptyBatch (tr : Trace) : Prop :=
  Forall (fun b => batchMessages b <> []) (sentBatches tr).

(** The message fits an empty batch of any capacity the broker hands out. *)
Definition alwaysFits (br : Broker) (message : Json) : Prop :=
  forall k, (messageSize br message <= capacityAt br k)%nat.



Definition completions (ms : list ServiceBusReceivedMessage) : Trace :=
  map (fun m => Call (CompleteMessage m)) ms.


(** The invocation returned normally, made no broker call, and left a
    response with this status in [context.res]. *)
Definition rejectedWith (status : Z) (result : Outcome unit * Trace) : Prop :=
  result.1 = Ok tt /\
  calls result.2 = [] /\
  exists r, finalRes result.2 = Some r /\ res_status r = status /\
            rb_status (res_body r) = status.

(** ** Concrete brokers and requests *)

(** A broker that never throws, hands out batches of capacity 10, charges a
    number its value and anything else 1, and has nothing to deliver. *)
Definition quietBroker : Broker :=
  {| faultAt := fun _ => None;
     capacityAt := fun _ => 10%nat;
     messageSize := fun m => match m with JNum z => Z.to_nat z | _ => 1%nat end;
     deliver := fun _ _ => [] |}.

(** The same broker, except that call number [n] throws. *)
Definition faultyBroker (n : nat) : Broker :=
  {| faultAt := fun k => if (k =? n)%nat then Some "ServiceBusError: unavailable" else None;
     capacityAt := capacityAt quietBroker;
     messageSize := messageSize quietBroker;
     deliver := deliver quietBroker |}.

Definition sampleMessage (seq : Z) : ServiceBusReceivedMessage :=
  {| m_body := JStr "payload";
     m_contentType := Some "text/plain";
     m_correlationId := None;
     m_deliveryCount := Some 1;
     m_enqueuedSequenceNumber := Some seq;
     m_enqueuedTimeUtc := Some 1700000000000;
     m_expiresAtUtc := Some 1700000600000;
     m_messageId := Some (JNum seq);
     m_partitionKey := None;
     m_replyTo := None;
     m_replyToSessionId := None;
     m_scheduledEnqueueTimeUtc := None;
     m_sequenceNumber := Some seq;
     m_sessionId := None;
     m_state := active;
     m_subject := None;
     m_timeToLive := Some 600000;
     m_to := None;
     m_lockToken := Some "lock";
     m_lockedUntilUtc := Some 1700000030000;
     m_deadLetterReason := None;
     m_applicationProperties := None |}.

(** A broker that never throws and holds three messages, of which it
    delivers as many as asked for. *)
Definition stockedBroker : Broker :=
  {| faultAt := fun _ => None;
     capacityAt := fun _ => 10%nat;
     messageSize := fun _ => 1%nat;
     deliver := fun _ n =>
       match n with
       | Int c => take (Z.to_nat c) [sampleMessage 1; sampleMessage 2; sampleMessage 3]
       | _ => []
       end |}.

(** The same broker, except that call number [n] throws. *)
Definition stockedFaultyBroker (n : nat) : Broker :=
  {| faultAt := fun k => if (k =? n)%nat then Some "ServiceBusError: unavailable" else None;
     capacityAt := capacityAt stockedBroker;
     messageSize := messageSize stockedBroker;
     deliver := deliver stockedBroker |}.

Definition sendEnv : Env := {[ sendEnvName := "Endpoint=sb://example/" ]}.

Definition receiveEnv : Env := {[ receiveEnvName := "Endpoint=sb://example/" ]}.

Definition postRequest (b : option Json) : HttpRequest :=
  {| req_method := Some "POST"; req_headers := ∅; req_query := ∅; req_body := b |}.

Definition getRequest (q : Query) : HttpRequest :=
  {| req_method := Some "GET"; req_headers := ∅; req_query := q; req_body := None |}.

Definition queueBody (messages : list Json) : option Json :=
  Some (JObj [("queueName", JStr "q1"); ("messages", JArr messages)]).

Definition receiveQuery (count : string) : Query :=
  {[ "queueName" := "q1"; "count" := count ]}.

Definition putRequest : HttpRequest :=
  {| req_method := Some "PUT";
     req_headers := {[ "accept" := "*/*" ]};
     req_query := ∅;
     req_body := Some (JStr "x") |}.

(** ** Further vocabulary: calls, responses and batches *)

(** The arguments a client, sender or receiver is constructed with are
    truthy: a connection string and a queue name that are there and not
    empty. *)
Definition constructedWithArguments (c : BrokerCall) : Prop :=
  match c with
  | NewServiceBusClient connectionString => truthyStr connectionString = true
  | CreateSender queueName => truthy (queueName) = true
  | CreateReceiver queueName => truthyStr queueName = true
  | _ => True
  end.

(** Calls of the send side and of the receive side of the client. *)
Definition senderSide (c : BrokerCall) : Prop :=
  match c with
  | CreateSender _ | CreateMessageBatch | SendMessages _ | SenderClose => True
  | _ => False
  end.

Definition receiverSide (c : BrokerCall) : Prop :=
  match c with
  | CreateReceiver _ | ReceiveMessages _ _ | CompleteMessage _ | ReceiverClose => True
  | _ => False
  end.

(** The first message of [b'] did not fit what [b] already held. *)
Definition spillsOver (br : Broker) (b b' : Batch) : Prop :=
  exists m rest,
    batchMessages b' = m :: rest /\
    (maxSizeInBytes b < batchLoad br b + messageSize br m)%nat.

(** Between any two batches sent one after the other, the later one starts
    with a message that did not fit the earlier one. *)
Definition greedy (br : Broker) (bs : list Batch) : Prop :=
  forall i b b', bs !! i = Some b -> bs !! S i = Some b' -> spillsOver br b b'.

(** The responses assigned to [context.res] during an invocation, in
    order. *)
Definition storedResponses (tr : Trace) : list Response := omap isSetRes tr.

(** The shape every response of the function has: the JSON content type,
    one of the four statuses, repeated in the body, and the request's own
    headers and method (with its body or its query) echoed. *)
Definition envelopeOf (req : HttpRequest) (r : Response) : Prop :=
  res_headers r = {[ "Content-Type" := "application/json" ]} /\
  rb_status (res_body r) = res_status r /\
  (res_status r = 200 \/ res_status r = 400 \/ res_status r = 405 \/ res_status r = 500) /\
  match rb_request (res_body r) with
  | EchoBody b h m => b = req_body req /\ h = req_headers req /\ m = req_method req
  | EchoQuery h m q => h = req_headers req /\ m = req_method req /\ q = req_query req
  end.

(** At most two responses are stored, and a second one only as the 500
    that replaces a 200. *)
Definition storedShape (tr : Trace) : Prop :=
  storedResponses tr = [] \/
  (exists r, storedResponses tr = [r]) \/
  (exists r1 r2, storedResponses tr = [r1; r2] /\ res_status r1 = 200 /\ res_status r2 = 500).

Definition storedAreLogged (tr : Trace) : Prop :=
  Forall (fun r => In (Log (LogResponse r)) tr) (storedResponses tr).

(** * Properties *)

(** ** The coercions on small inputs *)

Example Number_12 : Number " 12 " = Int 12. Proof. reflexivity. Qed.
Example Number_neg : Number "-7" = Int (-7). Proof. reflexivity. Qed.
Example Number_hex : Number "0x1f" = Int 31. Proof. reflexivity. Qed.
Example Number_frac : Number "1.5" = Untracked. Proof. reflexivity. Qed.
Example Number_exp : Number "2e3" = Untracked. Proof. reflexivity. Qed.
Example Number_dot : Number "." = NaN. Proof. reflexivity. Qed.
Example Number_word : Number "abc" = NaN. Proof. reflexivity. Qed.
Example Number_mixed : Number "12px" = NaN. Proof. reflexivity. Qed.
Example Number_empty : Number "" = Int 0. Proof. reflexivity. Qed.
Example decimal_3 : decimal 3 = "3". Proof. reflexivity. Qed.
Example ToString_arr : ToString (JArr [JNum 1; JNull; JStr "a"]) = Ok "1,,a".
Proof. reflexivity. Qed.
Example ToString_safe : ToString (JNum 9007199254740991) = Ok "9007199254740991".
Proof. reflexivity. Qed.
Example ToString_rounded : ToString (JNum 9007199254740993) = Ok "9007199254740992".
Proof. vm_compute. reflexivity. Qed.
Example ToString_zeros : ToString (JNum (2 ^ 60)) = Ok "1152921504606847000".
Proof. vm_compute. reflexivity. Qed.
Example ToString_exponent : ToString (JNum (10 ^ 21)) = Ok "1e+21".
Proof. vm_compute. reflexivity. Qed.
Example ToString_negative : ToString (JNum (- 2 ^ 70)) = Ok "-1.1805916207174113e+21".
Proof. vm_compute. reflexivity. Qed.
Example ToString_object : ToString (JObj [("a", JNum 1)]) = Ok "[object Object]".
Proof. reflexivity. Qed.
Example ToString_shadowed :
  ToString (JArr [JStr "a"; JObj [("toString", JNum 1)]]) = Throw cannotConvert.
Proof. reflexivity. Qed.


(** ** Traces *)

Lemma calls_app (tr1 tr2 : Trace) : calls (tr1 ++ tr2) = calls tr1 ++ calls tr2.
Proof. apply omap_app. Qed.

Lemma calls_nil : calls [] = [].
Proof. reflexivity. Qed.

Lemma calls_cons_call (c : BrokerCall) (tr : Trace) : calls (Call c :: tr) = c :: calls tr.
Proof. reflexivity. Qed.

Lemma calls_cons_log (l : LogEntry) (tr : Trace) : calls (Log l :: tr) = calls tr.
Proof. reflexivity. Qed.

Lemma calls_cons_setRes (r : Response) (tr : Trace) : calls (SetRes r :: tr) = calls tr.
Proof. reflexivity. Qed.

Ltac calls_simpl :=
  cbn [app];
  repeat first [ rewrite calls_app | rewrite calls_cons_call | rewrite calls_cons_log
               | rewrite calls_cons_setRes | rewrite calls_nil ];
  cbn [length app].

Lemma sentBatches_app (tr1 tr2 : Trace) :
  sentBatches (tr1 ++ tr2) = sentBatches tr1 ++ sentBatches tr2.
Proof. unfold sentBatches. rewrite calls_app. apply omap_app. Qed.

Lemma completedMessages_app (tr1 tr2 : Trace) :
  completedMessages (tr1 ++ tr2) = completedMessages tr1 ++ completedMessages tr2.
Proof. unfold completedMessages. rewrite calls_app. apply omap_app. Qed.

Lemma bind_run {A B} (m : M A) (f : A -> M B) (tr : Trace) :
  (m ≫= f) tr = match m tr with
                | (Ok a, tr') => f a tr'
                | (Throw e, tr') => (Throw e, tr')
                end.
Proof. reflexivity. Qed.

Lemma ret_run {A} (a : A) (tr : Trace) : (mret a : M A) tr = (Ok a, tr).
Proof. reflexivity. Qed.

Lemma ret_bind {A B} (a : A) (f : A -> M B) (tr : Trace) : (mret a ≫= f) tr = f a tr.
Proof. reflexivity. Qed.

Lemma emit_bind {B} (e : Event) (f : unit -> M B) (tr : Trace) :
  (emit e ≫= f) tr = f tt (tr ++ [e]).
Proof. reflexivity. Qed.

Lemma log_bind {B} (l : LogEntry) (f : unit -> M B) (tr : Trace) :
  (log l ≫= f) tr = f tt (tr ++ [Log l]).
Proof. reflexivity. Qed.

Lemma setRes_bind {B} (r : Response) (f : unit -> M B) (tr : Trace) :
  (setRes r ≫= f) tr = f tt (tr ++ [SetRes r]).
Proof. reflexivity. Qed.

Lemma setRes_run (r : Response) (tr : Trace) : setRes r tr = (Ok tt, tr ++ [SetRes r]).
Proof. reflexivity. Qed.

Lemma lift_bind {A B} (o : Outcome A) (f : A -> M B) (tr : Trace) :
  (lift o ≫= f) tr = match o with Ok a => f a tr | Throw e => (Throw e, tr) end.
Proof. destruct o; reflexivity. Qed.

Lemma snoc2 {A} (l : list A) (x y : A) : (l ++ [x]) ++ [y] = l ++ [x; y].
Proof. by rewrite <- app_assoc. Qed.

Ltac list_norm := repeat first [rewrite <- app_assoc | progress cbn [app]].

Ltac mrun :=
  repeat first
    [ rewrite log_bind | rewrite setRes_bind | rewrite emit_bind | rewrite lift_bind
    | rewrite ret_bind
    | rewrite setRes_run | rewrite ret_run ].

Lemma reject_run (r : Response) (tr : Trace) :
  reject r tr = (Ok false, tr ++ [Log (LogResponse r); SetRes r]).
Proof. unfold reject. mrun. by rewrite snoc2. Qed.

Lemma catchBlock_run (req : HttpRequest) (e : exn) (tr : Trace) :
  catchBlock req e tr =
  (Ok tt, tr ++ [Log (LogResponse (createErrorResponse req (String_ e)));
                 SetRes (createErrorResponse req (String_ e))]).
Proof. unfold catchBlock. mrun. by rewrite snoc2. Qed.

Lemma finalRes_snoc (tr : Trace) (r : Response) : finalRes (tr ++ [SetRes r]) = Some r.
Proof. unfold finalRes. rewrite omap_app. cbn. apply last_snoc. Qed.

Lemma finalRes_call (tr : Trace) (c : BrokerCall) : finalRes (tr ++ [Call c]) = finalRes tr.
Proof. unfold finalRes. rewrite omap_app. cbn. by rewrite app_nil_r. Qed.

Lemma finalRes_log (tr : Trace) (l : LogEntry) : finalRes (tr ++ [Log l]) = finalRes tr.
Proof. unfold finalRes. rewrite omap_app. cbn. by rewrite app_nil_r. Qed.

(** ** Validation *)

(** What [validateQueueRequest] does, check by check. *)
Lemma validateQueueRequest_run (env : Env) (req : HttpRequest) (tr : Trace) :
  validateQueueRequest env req tr =
  match destructureBody (req_body req) with
  | Throw e => (Throw e, tr)
  | Ok (queueName, messages) =>
      if negb (truthyStr (env !! sendEnvName)) then
        reject (createErrorResponse req
          "'SERVICEBUS_CONNECTION_STRING' is missing from environment variables!") tr
      else if negb (truthy queueName) then
        reject (createBadRequestResponse req "Missing 'queueName' from request body!") tr
      else if negb (truthy messages) then
        reject (createBadRequestResponse req "Missing 'messages' from request body!") tr
      else if negb (isArray messages) then
        reject (createBadRequestResponse req "'messages' is not an array!") tr
      else (Ok true, tr)
  end.
Proof.
  unfold validateQueueRequest. rewrite bind_run. unfold lift.
  destruct (destructureBody (req_body req)) as [[queueName messages]|e]; [|reflexivity].
  cbv beta iota.
  destruct (negb (truthyStr _)); [reflexivity|].
  destruct (negb (truthy queueName)); [reflexivity|].
  destruct (negb (truthy messages)); [reflexivity|].
  destruct (negb (isArray messages)); reflexivity.
Qed.

Section Validation.
Variable br : Broker.
Variables (env : Env) (req : HttpRequest).

Lemma queueMessages_no_connection (queueName messages : option Json) :
  destructureBody (req_body req) = Ok (queueName, messages) ->
  truthyStr (env !! sendEnvName) = false ->
  let r := createErrorResponse req
    "'SERVICEBUS_CONNECTION_STRING' is missing from environment variables!" in
  run (queueMessages br env req) =
  (Ok tt, [Log (LogRequestBody (req_method req) (req_body req));
           Log (LogResponse r); SetRes r]).
Proof.
  intros Hd He r. unfold run, queueMessages. mrun.
  rewrite bind_run, validateQueueRequest_run, Hd. cbv beta iota.
  rewrite He. cbn [negb]. rewrite reject_run. reflexivity.
Qed.

Lemma queueMessages_no_queueName (queueName messages : option Json) :
  destructureBody (req_body req) = Ok (queueName, messages) ->
  truthyStr (env !! sendEnvName) = true ->
  truthy queueName = false ->
  let r := createBadRequestResponse req "Missing 'queueName' from request body!" in
  run (queueMessages br env req) =
  (Ok tt, [Log (LogRequestBody (req_method req) (req_body req));
           Log (LogResponse r); SetRes r]).
Proof.
  intros Hd He Hq r. unfold run, queueMessages. mrun.
  rewrite bind_run, validateQueueRequest_run, Hd. cbv beta iota.
  rewrite He, Hq. cbn [negb]. rewrite reject_run. reflexivity.
Qed.

Lemma receiveMessages_no_connection :
  truthyStr (env !! receiveEnvName) = false ->
  let r := createErrorResponse req
    "'SERVICE_BUS_CONNECTION_STRING' is missing from environment variables!" in
  run (receiveMessages br env req) =
  (Ok tt, [Log (LogRequestQuery (req_method req) (req_query req));
           Log (LogResponse r); SetRes r]).
Proof.
  intros He r. unfold run, receiveMessages, validateReceiveRequest. mrun.
  rewrite bind_run, He. cbn [negb]. rewrite reject_run. reflexivity.
Qed.

Lemma receiveMessages_no_queueName :
  truthyStr (env !! receiveEnvName) = true ->
  truthyStr (req_query req !! "queueName") = false ->
  let r := createBadRequestResponse req "Missing 'queueName' from request query!" in
  run (receiveMessages br env req) =
  (Ok tt, [Log (LogRequestQuery (req_method req) (req_query req));
           Log (LogResponse r); SetRes r]).
Proof.
  intros He Hq r. unfold run, receiveMessages, validateReceiveRequest. mrun.
  rewrite bind_run, He, Hq. cbn [negb]. rewrite reject_run. reflexivity.
Qed.
End Validation.

(** ** Broker calls *)

Lemma call_run {A} (br : Broker) (c : BrokerCall) (answer : nat -> A) (tr : Trace) :
  call br c answer tr =
  match faultAt br (length (calls tr)) with
  | Some e => (Throw (BrokerError e), tr ++ [Call c])
  | None => (Ok (answer (length (calls tr))), tr ++ [Call c])
  end.
Proof. reflexivity. Qed.

Lemma call_bind {A B} (br : Broker) (c : BrokerCall) (answer : nat -> A)
      (f : A -> M B) (tr : Trace) :
  (call br c answer ≫= f) tr =
  match faultAt br (length (calls tr)) with
  | Some e => (Throw (BrokerError e), tr ++ [Call c])
  | None => f (answer (length (calls tr))) (tr ++ [Call c])
  end.
Proof. rewrite bind_run, call_run. by destruct (faultAt br _). Qed.

Ltac case_fault :=
  match goal with |- context [faultAt ?b ?n] => destruct (faultAt b n) end.

(** ** The packing loop *)

Lemma createdIn_app (br : Broker) (tr ev : Trace) (b : Batch) :
  createdIn br tr b -> createdIn br (tr ++ ev) b.
Proof.
  intros (k & Hk & Hc). exists k. split; [|done].
  rewrite calls_app. by apply lookup_app_l_Some.
Qed.

Lemma withinCapacity_app (br : Broker) (tr ev : Trace) (b : Batch) :
  withinCapacity br tr b -> withinCapacity br (tr ++ ev) b.
Proof. intros [H1 H2]. split; [by apply createdIn_app | done]. Qed.

Lemma goodBatch_app (br : Broker) (tr ev : Trace) (b : Batch) :
  goodBatch br tr b -> goodBatch br (tr ++ ev) b.
Proof. intros [H1 H2]. split; [done | by apply withinCapacity_app]. Qed.

Lemma withinCapacity_mono (br : Broker) (tr tr' : Trace) (b : Batch) :
  withinCapacity br tr b -> tr `prefix_of` tr' -> withinCapacity br tr' b.
Proof. intros H [ev ->]. by apply withinCapacity_app. Qed.

Ltac by_prefix := eexists; list_norm; reflexivity.

Lemma goodBatch_fresh (br : Broker) (tr : Trace) :
  goodBatch br (tr ++ [Call CreateMessageBatch])
            (emptyBatch (capacityAt br (length (calls tr)))).
Proof.
  split; [reflexivity|]. split.
  - exists (length (calls tr)). split; [|reflexivity].
    rewrite calls_app. cbn. by rewrite lookup_app_r, Nat.sub_diag.
  - unfold batchLoad. cbn. lia.
Qed.

Lemma tryAddMessage_true (br : Broker) (tr : Trace) (b added : Batch) (message : Json) :
  tryAddMessage (messageSize br) b message = (true, added) ->
  goodBatch br tr b ->
  goodBatch br tr added /\ batchMessages added = batchMessages b ++ [message].
Proof.
  unfold tryAddMessage. intros H (Hs & Hc & Hl).
  destruct (_ <=? _)%nat eqn:Hle; [|discriminate].
  apply Nat.leb_le in Hle. injection H as <-.
  unfold goodBatch, withinCapacity, batchLoad in *. cbn.
  rewrite sum_list_with_app. cbn. repeat split; [lia | done | lia].
Qed.

Lemma tryAddMessage_false (size : Json -> nat) (b other : Batch) (message : Json) :
  tryAddMessage size b message = (false, other) ->
  (maxSizeInBytes b < sizeInBytes b + size message)%nat.
Proof.
  unfold tryAddMessage. destruct (_ <=? _)%nat eqn:Hle; [discriminate|].
  intros _. by apply Nat.leb_gt in Hle.
Qed.

Lemma sentBatches_cons_send (b : Batch) (ev : Trace) :
  sentBatches (Call (SendMessages b) :: ev) = b :: sentBatches ev.
Proof. reflexivity. Qed.

Lemma sentBatches_cons_create (ev : Trace) :
  sentBatches (Call CreateMessageBatch :: ev) = sentBatches ev.
Proof. reflexivity. Qed.

Ltac all_packing :=
  repeat (apply List.Forall_cons; [assumption|]); first [assumption | apply List.Forall_nil].

Section Packing.
Variable br : Broker.

(** Whatever the broker does, the loop only creates and sends batches;
    every batch it sends fits its capacity, the batches sent are a prefix
    of the messages to pack, and when the loop ends normally the batches
    sent followed by the current batch are exactly those messages. *)
Lemma forEachMessage_sound (messages : list Json) :
  forall (b : Batch) (tr tr' : Trace) (o : Outcome Batch),
    forEachMessage br b messages tr = (o, tr') ->
    goodBatch br tr b ->
    exists ev,
      tr' = tr ++ ev /\
      Forall packingEvent ev /\
      Forall (withinCapacity br tr') (sentBatches ev) /\
      match o with
      | Ok b' =>
          goodBatch br tr' b' /\
          concat (map batchMessages (sentBatches ev)) ++ batchMessages b' =
          batchMessages b ++ messages
      | Throw _ =>
          exists rest,
            concat (map batchMessages (sentBatches ev)) ++ rest =
            batchMessages b ++ messages
      end.
Proof.
  induction messages as [|message rest IH]; intros b tr tr' o Hrun Hb.
  - cbn in Hrun. injection Hrun as <- <-. exists [].
    rewrite !app_nil_r. cbn. split_and!; [done | constructor | constructor | done | done].
  - cbn [forEachMessage] in Hrun.
    assert (Hflush : forall ev, Forall (withinCapacity br (tr ++ Call (SendMessages b) :: ev))
                                       (sentBatches [Call (SendMessages b)])).
    { intros ev. cbn. constructor; [|constructor]. apply withinCapacity_app, Hb. }
    assert (Hsend : packingEvent (Call (SendMessages b))) by (right; by exists b).
    assert (Hcreate : packingEvent (Call CreateMessageBatch)) by by left.
    destruct (tryAddMessage (messageSize br) b message) as [[|] added] eqn:Hadd.
    + destruct (tryAddMessage_true _ tr _ _ _ Hadd Hb) as [Hgood Hmsgs].
      destruct (IH _ _ _ _ Hrun Hgood) as (ev & -> & Hev & Hsent & Ho).
      exists ev. split_and!; [done | done | done |].
      rewrite Hmsgs, <- app_assoc in Ho. exact Ho.
    + unfold sendMessages, createMessageBatch in Hrun.
      rewrite call_bind in Hrun.
      destruct (faultAt br (length (calls tr))) as [e|].
      { injection Hrun as <- <-. exists [Call (SendMessages b)].
        split_and!; [done | all_packing | apply Hflush |].
        cbn. exists (message :: rest). by rewrite app_nil_r. }
      rewrite call_bind in Hrun.
      destruct (faultAt br (length (calls (tr ++ [Call (SendMessages b)])))) as [e|].
      { injection Hrun as <- <-.
        exists [Call (SendMessages b); Call CreateMessageBatch].
        rewrite snoc2.
        split_and!; [done | all_packing | apply Hflush |].
        cbn. exists (message :: rest). by rewrite app_nil_r. }
      set (tr1 := tr ++ [Call (SendMessages b)]) in *.
      set (fresh := emptyBatch (capacityAt br (length (calls tr1)))) in *.
      pose proof (goodBatch_fresh br tr1) as Hfresh. fold fresh in Hfresh.
      destruct (tryAddMessage (messageSize br) fresh message) as [[|] added2] eqn:Hadd2.
      * destruct (tryAddMessage_true _ _ _ _ _ Hadd2 Hfresh) as [Hgood Hmsgs].
        destruct (IH _ _ _ _ Hrun Hgood) as (ev & -> & Hev & Hsent & Ho).
        exists ([Call (SendMessages b); Call CreateMessageBatch] ++ ev).
        subst tr1. rewrite snoc2, <- !app_assoc in *. cbn [app] in *.
        split_and!; [done | all_packing | |].
        -- change (Call (SendMessages b) :: Call CreateMessageBatch :: ev)
             with ([Call (SendMessages b)] ++ Call CreateMessageBatch :: ev).
           rewrite sentBatches_app. apply Forall_app. split; [apply Hflush|].
           exact Hsent.
        -- rewrite sentBatches_cons_send, sentBatches_cons_create.
           change (batchMessages fresh) with (@nil Json) in Hmsgs.
           rewrite Hmsgs in Ho. cbn [app map concat] in Ho |- *.
           destruct o as [b'|e'].
           ++ destruct Ho as [Hg Hc]. split; [exact Hg|].
              by rewrite <- app_assoc, Hc.
           ++ destruct Ho as [rest' Hc]. exists rest'.
              by rewrite <- app_assoc, Hc.
      * cbn in Hrun. injection Hrun as <- <-.
        exists [Call (SendMessages b); Call CreateMessageBatch].
        subst tr1. rewrite snoc2.
        split_and!; [done | all_packing | apply Hflush |].
        cbn. exists (message :: rest). by rewrite app_nil_r.
Qed.
End Packing.

(** ** The handlers after validation *)

Lemma validateQueueRequest_cases (env : Env) (req : HttpRequest) (tr : Trace) :
  (exists e, validateQueueRequest env req tr = (Throw e, tr)) \/
  (exists r, validateQueueRequest env req tr
             = (Ok false, tr ++ [Log (LogResponse r); SetRes r]) /\
             res_status r <> 200) \/
  (exists queueName items,
      validQueueRequest env req queueName items /\
      validateQueueRequest env req tr = (Ok true, tr)).
Proof.
  rewrite validateQueueRequest_run. unfold validQueueRequest.
  destruct (destructureBody (req_body req)) as [[queueName messages]|e]; [|left; eauto].
  right.
  destruct (truthyStr (env !! sendEnvName)); cbn [negb];
    [|left; eexists; split; [apply reject_run | done]].
  destruct (truthy queueName) eqn:Hq; cbn [negb];
    [|left; eexists; split; [apply reject_run | done]].
  destruct (truthy messages); cbn [negb];
    [|left; eexists; split; [apply reject_run | done]].
  destruct messages as [[| | | |items|]|]; cbn [isArray negb];
    try (left; eexists; split; [apply reject_run | done]).
  right. by exists queueName, items.
Qed.

Lemma validateReceiveRequest_cases (env : Env) (req : HttpRequest) (tr : Trace) :
  (exists r, validateReceiveRequest env req tr
             = (Ok false, tr ++ [Log (LogResponse r); SetRes r]) /\
             res_status r <> 200) \/
  (validReceiveRequest env req /\ validateReceiveRequest env req tr = (Ok true, tr)).
Proof.
  unfold validateReceiveRequest, validReceiveRequest.
  destruct (truthyStr (env !! receiveEnvName)); cbn [negb];
    [|left; eexists; split; [apply reject_run | done]].
  destruct (truthyStr (req_query req !! "queueName")); cbn [negb];
    [|left; eexists; split; [apply reject_run | done]].
  by right.
Qed.

Section AfterValidation.
Variable br : Broker.
Variables (env : Env) (req : HttpRequest).

(** [try { body } catch ... finally { client.close() }] of both handlers. *)
Lemma tryCatchFinally_run (body : M unit) (tr : Trace) :
  tryCatchFinally body (catchBlock req) (clientClose br) tr =
  let '(o, tr1) :=
    match body tr with
    | (Ok a, tr1) => (Ok a, tr1)
    | (Throw e, tr1) =>
        (Ok tt, tr1 ++ [Log (LogResponse (createErrorResponse req (String_ e)));
                        SetRes (createErrorResponse req (String_ e))])
    end in
  match faultAt br (length (calls tr1)) with
  | Some e' => (Throw (BrokerError e'), tr1 ++ [Call ClientClose])
  | None => (o, tr1 ++ [Call ClientClose])
  end.
Proof.
  unfold tryCatchFinally.
  destruct (body tr) as [[[]|e] tr1]; [|rewrite catchBlock_run];
    unfold clientClose; rewrite call_run; by destruct (faultAt br _).
Qed.

(** The client is closed last, whatever the [try] block did. *)
Lemma tryCatchFinally_trace (body : M unit) (tr : Trace) :
  (tryCatchFinally body (catchBlock req) (clientClose br) tr).2 =
  match body tr with
  | (Ok a, tr1) => tr1
  | (Throw e, tr1) =>
      tr1 ++ [Log (LogResponse (createErrorResponse req (String_ e)));
              SetRes (createErrorResponse req (String_ e))]
  end ++ [Call ClientClose].
Proof.
  rewrite tryCatchFinally_run.
  destruct (body tr) as [[[]|e] tr1]; by destruct (faultAt br _).
Qed.

Lemma queueMessages_valid (queueName : option Json) (items : list Json) :
  validQueueRequest env req queueName items ->
  run (queueMessages br env req) =
  match faultAt br 0 with
  | Some e =>
      (Throw (BrokerError e),
       [Log (LogRequestBody (req_method req) (req_body req));
        Call (NewServiceBusClient (env !! sendEnvName))])
  | None =>
      match faultAt br 1 with
      | Some e => (Throw (BrokerError e), queueSetup env req queueName)
      | None =>
          tryCatchFinally (queueTry br req queueName (Some (JArr items)))
                          (catchBlock req) (clientClose br) (queueSetup env req queueName)
      end
  end.
Proof.
  intros (Hd & He & Hq). unfold run, queueMessages. mrun.
  rewrite bind_run, validateQueueRequest_run, Hd. cbv beta iota.
  rewrite He, Hq. cbn [negb truthy isArray]. mrun.
  unfold newServiceBusClient, createSender. rewrite call_bind. calls_simpl.
  destruct (faultAt br 0); [reflexivity|].
  rewrite call_bind. calls_simpl.
  destruct (faultAt br 1); reflexivity.
Qed.

Lemma receiveMessages_valid :
  validReceiveRequest env req ->
  run (receiveMessages br env req) =
  match faultAt br 0 with
  | Some e =>
      (Throw (BrokerError e),
       [Log (LogRequestQuery (req_method req) (req_query req));
        Call (NewServiceBusClient (env !! receiveEnvName))])
  | None =>
      match faultAt br 1 with
      | Some e => (Throw (BrokerError e), receiveSetup env req)
      | None =>
          tryCatchFinally (receiveTry br req (req_query req !! "count"))
                          (catchBlock req) (clientClose br) (receiveSetup env req)
      end
  end.
Proof.
  intros (He & Hq). unfold run, receiveMessages, validateReceiveRequest. mrun.
  rewrite bind_run, He, Hq. cbn [negb]. mrun. cbn [negb].
  unfold newServiceBusClient, createReceiver. rewrite call_bind. calls_simpl.
  destruct (faultAt br 0); [reflexivity|].
  rewrite call_bind. calls_simpl.
  destruct (faultAt br 1); reflexivity.
Qed.
End AfterValidation.

(** ** The send path, once the [try] block is entered *)

Lemma finalRes_app (tr1 tr2 : Trace) :
  finalRes (tr1 ++ tr2) =
  match finalRes tr2 with Some r => Some r | None => finalRes tr1 end.
Proof. unfold finalRes. rewrite omap_app. apply last_app. Qed.

Lemma packing_no_setRes (ev : Trace) : Forall packingEvent ev -> omap isSetRes ev = [].
Proof.
  induction 1 as [|e ev [->|[b ->]] _ IH]; [done | exact IH | exact IH].
Qed.

Lemma packing_finalRes (ev : Trace) : Forall packingEvent ev -> finalRes ev = None.
Proof. intros H. unfold finalRes. by rewrite packing_no_setRes. Qed.

Lemma packing_calls (ev : Trace) (c : BrokerCall) :
  Forall packingEvent ev -> c ∈ calls ev ->
  c = CreateMessageBatch \/ exists b, c = SendMessages b.
Proof.
  intros Hev Hc. apply list_elem_of_omap in Hc as (e & He & Hc).
  rewrite Forall_forall in Hev. destruct (Hev e He) as [->|[b ->]].
  - left. cbn in Hc. congruence.
  - right. exists b. cbn in Hc. congruence.
Qed.

(** The message of the 200 response for a queue name that is a string. *)
Lemma sentMessage_string (q : string) (items : list Json) :
  sentMessage (Some (JStr q)) (Some (JArr items)) =
  Ok ("Sent " +:+ decimal (Z.of_nat (length items)) +:+ " messages to queue: '" +:+ q +:+ "'").
Proof. reflexivity. Qed.

Section SendPath.
Variable br : Broker.
Variable req : HttpRequest.
Variables (queueName : option Json) (items : list Json).

Let ok (message : string) : Response := queueOkResponse req message.

(** The [try] block of the send path: it packs and sends, and either
    gets as far as storing the 200 response and closing the sender, all
    messages having been handed over, or throws before that with a prefix
    of the messages handed over. *)
Lemma queueTry_sound (tr tr' : Trace) (o : Outcome unit) :
  queueTry br req queueName (Some (JArr items)) tr = (o, tr') ->
  exists ev,
    Forall packingEvent ev /\
    Forall (withinCapacity br (tr ++ ev)) (sentBatches ev) /\
    ((exists message,
      sentMessage queueName (Some (JArr items)) = Ok message /\
      concat (map batchMessages (sentBatches ev)) = items /\
      tr' = tr ++ ev ++ [SetRes (ok message); Log (LogResponse (ok message));
                         Call SenderClose] /\
      o = match faultAt br (length (calls (tr ++ ev))) with
          | Some e => Throw (BrokerError e)
          | None => Ok tt
          end)
     \/
     (exists e rest,
         o = Throw e /\ tr' = tr ++ ev /\
         concat (map batchMessages (sentBatches ev)) ++ rest = items)).
Proof.
  unfold queueTry, createMessageBatch. rewrite call_bind.
  assert (Hcreate : packingEvent (Call CreateMessageBatch)) by by left.
  destruct (faultAt br (length (calls tr))) as [e|].
  { intros [= <- <-]. exists [Call CreateMessageBatch].
    split_and!; [all_packing | apply List.Forall_nil |].
    right. exists (BrokerError e), items. done. }
  mrun. cbn [forOf]. rewrite bind_run.
  destruct (forEachMessage br _ items _) as [o1 tr1] eqn:Hloop.
  destruct (forEachMessage_sound br items _ _ _ _ Hloop (goodBatch_fresh br tr))
    as (ev & -> & Hev & Hsent & Ho).
  rewrite <- app_assoc in *. cbn [app] in *.
  destruct o1 as [b'|e1].
  - destruct Ho as [Hgood Hconcat]. cbn [emptyBatch batchMessages app] in Hconcat.
    assert (Hsend : packingEvent (Call (SendMessages b'))) by (right; by exists b').
    assert (Hall : Forall packingEvent (Call CreateMessageBatch :: ev ++ [Call (SendMessages b')])).
    { apply List.Forall_cons; [done|]. apply Forall_app. split; [done|]. all_packing. }
    assert (Hsent' : forall tl,
               Forall (withinCapacity br (tr ++ (Call CreateMessageBatch :: ev ++ [Call (SendMessages b')]) ++ tl))
                      (sentBatches (Call CreateMessageBatch :: ev ++ [Call (SendMessages b')]))).
    { intros tl. rewrite sentBatches_cons_create, sentBatches_app. apply Forall_app. split.
      - eapply Forall_impl; [exact Hsent|]. intros b Hb.
        eapply withinCapacity_mono; [exact Hb | by_prefix].
      - apply List.Forall_cons; [|apply List.Forall_nil].
        eapply withinCapacity_mono; [exact (proj2 Hgood) | by_prefix]. }
    assert (Hcat : concat (map batchMessages
                      (sentBatches (Call CreateMessageBatch :: ev ++ [Call (SendMessages b')]))) = items).
    { rewrite sentBatches_cons_create, sentBatches_app, map_app, concat_app.
      cbn. by rewrite app_nil_r. }
    unfold sendMessages. rewrite call_bind.
    destruct (faultAt br (length (calls (tr ++ Call CreateMessageBatch :: ev)))) as [e|].
    + intros [= <- <-]. exists (Call CreateMessageBatch :: ev ++ [Call (SendMessages b')]).
      split_and!; [done | specialize (Hsent' []); by rewrite app_nil_r in Hsent' |].
      right. exists (BrokerError e), []. split_and!; [done | by rewrite <- app_assoc |].
      by rewrite app_nil_r.
    + rewrite lift_bind.
      destruct (sentMessage queueName (Some (JArr items))) as [message|e] eqn:Hmessage.
      2:{ intros [= <- <-]. exists (Call CreateMessageBatch :: ev ++ [Call (SendMessages b')]).
          split_and!; [done | specialize (Hsent' []); by rewrite app_nil_r in Hsent' |].
          right. exists e, []. split_and!; [done | by list_norm |].
          by rewrite app_nil_r. }
      mrun. unfold senderClose. rewrite call_run. intros Hrun.
      exists (Call CreateMessageBatch :: ev ++ [Call (SendMessages b')]).
      split_and!; [done | specialize (Hsent' []); by rewrite app_nil_r in Hsent' |].
      left. exists message. split; [done|]. split; [done|].
      replace (tr ++ Call CreateMessageBatch :: ev ++ [Call (SendMessages b')])
        with ((tr ++ Call CreateMessageBatch :: ev) ++ [Call (SendMessages b')])
        by (by list_norm).
      revert Hrun. fold (ok message). calls_simpl.
      replace (length (calls tr ++ CreateMessageBatch :: calls ev) + 1)%nat
        with (length (calls tr ++ CreateMessageBatch :: calls ev ++ [SendMessages b']))
        by (rewrite !length_app; cbn; rewrite length_app; cbn; lia).
      rewrite <- !app_assoc. cbn [app].
      destruct (faultAt br _); intros [= <- <-]; done.
  - destruct Ho as [rest Hconcat]. cbn [emptyBatch batchMessages app] in Hconcat.
    intros [= <- <-]. exists (Call CreateMessageBatch :: ev).
    split_and!; [by apply List.Forall_cons | by rewrite sentBatches_cons_create |].
    right. exists e1, rest. by rewrite sentBatches_cons_create.
Qed.
End SendPath.

Section SendRuns.
Variable br : Broker.
Variables (env : Env) (req : HttpRequest).

(** A request that fails validation reaches no broker call and no 200. *)
Lemma queueMessages_rejected :
  (exists queueName items, validQueueRequest env req queueName items) \/
  (calls (run (queueMessages br env req)).2 = [] /\
   forall r, finalRes (run (queueMessages br env req)).2 = Some r -> res_status r <> 200).
Proof.
  destruct (validateQueueRequest_cases env req
              [Log (LogRequestBody (req_method req) (req_body req))])
    as [[e H]|[(r & H & Hr)|(queueName & items & Hv & _)]].
  - right. unfold run, queueMessages. mrun. cbn [app]. rewrite bind_run, H. by cbn.
  - right. unfold run, queueMessages. mrun. cbn [app]. rewrite bind_run, H. cbn.
    split; [done|]. by intros ? [= <-].
  - left. eauto.
Qed.

Variables (queueName : option Json) (items : list Json).
Hypothesis valid : validQueueRequest env req queueName items.
Hypothesis client_ok : faultAt br 0 = None.
Hypothesis sender_ok : faultAt br 1 = None.

Let ok (message : string) : Response := queueOkResponse req message.
Let err (e : exn) : Response := createErrorResponse req (String_ e).

(** The three ways an invocation of the send path ends once its [try]
    block is entered: sender closed and 200 stored; 200 stored, then
    overwritten because closing the sender threw; or an exception before
    the response, with only a prefix of the messages handed over. *)
Lemma queueMessages_entered :
  exists ev tail,
    (run (queueMessages br env req)).2 = queueSetup env req queueName ++ ev ++ tail /\
    Forall packingEvent ev /\
    Forall (withinCapacity br (run (queueMessages br env req)).2) (sentBatches ev) /\
    ((exists message,
         sentMessage queueName (Some (JArr items)) = Ok message /\
         concat (map batchMessages (sentBatches ev)) = items /\
         tail = [SetRes (ok message); Log (LogResponse (ok message));
                 Call SenderClose; Call ClientClose])
     \/
     (exists message e,
         sentMessage queueName (Some (JArr items)) = Ok message /\
         concat (map batchMessages (sentBatches ev)) = items /\
         tail = [SetRes (ok message); Log (LogResponse (ok message)); Call SenderClose;
                 Log (LogResponse (err e)); SetRes (err e); Call ClientClose])
     \/
     (exists e rest,
         concat (map batchMessages (sentBatches ev)) ++ rest = items /\
         tail = [Log (LogResponse (err e)); SetRes (err e); Call ClientClose])).
Proof.
  rewrite (queueMessages_valid br env req _ _ valid), client_ok, sender_ok.
  rewrite tryCatchFinally_trace.
  destruct (queueTry br req queueName (Some (JArr items)) (queueSetup env req queueName))
    as [o tr1] eqn:Htry.
  destruct (queueTry_sound br req _ _ _ _ _ Htry)
    as (ev & Hev & Hsent & [(message & Hmessage & Hcat & -> & Ho)|(e & rest & -> & -> & Hcat)]).
  - destruct (faultAt br (length (calls (queueSetup env req queueName ++ ev)))) as [e|];
      subst o.
    + exists ev. eexists. split_and!.
      * list_norm. reflexivity.
      * done.
      * eapply Forall_impl; [exact Hsent|]. intros b Hb.
        eapply withinCapacity_mono; [exact Hb | by_prefix].
      * right. left. exists message, (BrokerError e). done.
    + exists ev. eexists. split_and!.
      * list_norm. reflexivity.
      * done.
      * eapply Forall_impl; [exact Hsent|]. intros b Hb.
        eapply withinCapacity_mono; [exact Hb | by_prefix].
      * left. exists message. done.
  - exists ev. eexists. split_and!.
    * list_norm. reflexivity.
    * done.
    * eapply Forall_impl; [exact Hsent|]. intros b Hb.
      eapply withinCapacity_mono; [exact Hb | by_prefix].
    * right. right. exists e, rest. done.
Qed.
End SendRuns.

Lemma sentBatches_entered (env : Env) (req : HttpRequest) (queueName : option Json)
      (ev tail : Trace) :
  sentBatches tail = [] ->
  sentBatches (queueSetup env req queueName ++ ev ++ tail) = sentBatches ev.
Proof. intros H. rewrite !sentBatches_app, H, app_nil_r. reflexivity. Qed.

(** ** C1: the batches sent are the messages, each within capacity *)

(** C1, as the code has it.  Whenever the send path answers 200, the
    batches handed to [sendMessages], concatenated in submission order, are
    exactly the [messages] of the request, in order, and every such batch
    holds messages whose total size is at most the capacity the broker
    reported at the [createMessageBatch] call that created it. *)
Theorem sent_batches_are_the_messages (br : Broker) (env : Env) (req : HttpRequest)
        (r : Response) :
  let tr := (run (queueMessages br env req)).2 in
  finalRes tr = Some r ->
  res_status r = 200 ->
  exists queueName items,
    destructureBody (req_body req) = Ok (queueName, Some (JArr items)) /\
    concat (map batchMessages (sentBatches tr)) = items /\
    Forall (withinCapacity br tr) (sentBatches tr).
Proof.
  intros tr Hres H200.
  destruct (queueMessages_rejected br env req) as [(queueName & items & Hv)|[_ Hno]];
    [|by destruct (Hno r Hres)].
  exists queueName, items. split; [apply Hv|].
  destruct (faultAt br 0) as [e0|] eqn:H0.
  { subst tr. rewrite (queueMessages_valid br env req _ _ Hv), H0 in Hres. discriminate. }
  destruct (faultAt br 1) as [e1|] eqn:H1.
  { subst tr. rewrite (queueMessages_valid br env req _ _ Hv), H0, H1 in Hres.
    discriminate. }
  destruct (queueMessages_entered br env req _ _ Hv H0 H1)
    as (ev & tail & Htr & Hev & Hsent & Hcases).
  fold tr in Htr, Hsent.
  assert (Hfinal : finalRes tr = finalRes tail \/ finalRes tail = None).
  { rewrite Htr, !finalRes_app. destruct (finalRes tail); auto. }
  destruct Hcases
    as [(message & _ & Hcat & ->)|[(message & e & _ & Hcat & ->)|(e & rest & Hcat & ->)]].
  - rewrite Htr, sentBatches_entered by reflexivity. rewrite <- Htr. done.
  - destruct Hfinal as [Hf|Hf]; [|discriminate].
    rewrite Hres in Hf. injection Hf as ->. discriminate.
  - destruct Hfinal as [Hf|Hf]; [|discriminate].
    rewrite Hres in Hf. injection Hf as ->. discriminate.
Qed.

Lemma sent_batches_are_the_messages_witness :
  exists queueName items,
    destructureBody (queueBody [JNum 4; JNum 4; JNum 4; JNum 7])
    = Ok (queueName, Some (JArr items)) /\
    concat (map batchMessages
             (sentBatches (run (queueMessages quietBroker sendEnv
                (postRequest (queueBody [JNum 4; JNum 4; JNum 4; JNum 7])))).2)) = items /\
    Forall (withinCapacity quietBroker
              (run (queueMessages quietBroker sendEnv
                (postRequest (queueBody [JNum 4; JNum 4; JNum 4; JNum 7])))).2)
           (sentBatches (run (queueMessages quietBroker sendEnv
                (postRequest (queueBody [JNum 4; JNum 4; JNum 4; JNum 7])))).2).
Proof.
  apply (sent_batches_are_the_messages quietBroker sendEnv
           (postRequest (queueBody [JNum 4; JNum 4; JNum 4; JNum 7]))
           (queueOkResponse (postRequest (queueBody [JNum 4; JNum 4; JNum 4; JNum 7]))
              "Sent 4 messages to queue: 'q1'")).
  - vm_compute. reflexivity.
  - reflexivity.
Defined.

(** C1 as stated fails: for the one message 40 and batches of capacity 10,
    on a broker that does not throw, the handler sends the first batch,
    empty, finds that the message does not fit a new one either, and
    answers 500; the batches sent do not hold the message. *)
Lemma oversize_message_is_not_sent :
  let req := postRequest (queueBody [JNum 40]) in
  let tr := (run (queueMessages quietBroker sendEnv req)).2 in
  validQueueRequest sendEnv req (Some (JStr "q1")) [JNum 40] /\
  sentBatches tr = [emptyBatch 10] /\
  concat (map batchMessages (sentBatches tr)) <> [JNum 40] /\
  finalRes tr = Some (createErrorResponse req "Error: Message too big to fit in a batch").
Proof.
  split_and!; [by split_and! | vm_compute; reflexivity | | vm_compute; reflexivity].
  assert (H : sentBatches
                (run (queueMessages quietBroker sendEnv
                        (postRequest (queueBody [JNum 40])))).2 = [emptyBatch 10])
    by (vm_compute; reflexivity).
  cbv zeta. rewrite H. discriminate.
Qed.

(** ** C3: empty batches *)

Lemma noEmptyBatch_snoc (tr : Trace) (e : Event) :
  noEmptyBatch tr ->
  match e with Call (SendMessages b) => batchMessages b <> [] | _ => True end ->
  noEmptyBatch (tr ++ [e]).
Proof.
  unfold noEmptyBatch. intros Htr He. rewrite sentBatches_app. apply Forall_app.
  split; [done|]. destruct e as [[]| |]; cbn; by repeat constructor.
Qed.

Section EmptyBatches.
Variable br : Broker.

(** Once the current batch holds a message, the loop sends no empty
    batch and ends with a batch that holds one. *)
Lemma forEachMessage_nonempty (messages : list Json) :
  forall (b : Batch) (tr tr' : Trace) (o : Outcome Batch),
    forEachMessage br b messages tr = (o, tr') ->
    batchMessages b <> [] ->
    noEmptyBatch tr ->
    noEmptyBatch tr' /\ forall b', o = Ok b' -> batchMessages b' <> [].
Proof.
  assert (Hadded : forall b added m,
             tryAddMessage (messageSize br) b m = (true, added) ->
             batchMessages added <> []).
  { unfold tryAddMessage. intros b added m H.
    destruct (_ <=? _)%nat; [|discriminate]. injection H as <-. cbn.
    by destruct (batchMessages b). }
  induction messages as [|message rest IH]; intros b tr tr' o Hrun Hb Htr.
  - cbn in Hrun. injection Hrun as <- <-. split; [done|]. by intros ? [= <-].
  - cbn [forEachMessage] in Hrun.
    destruct (tryAddMessage (messageSize br) b message) as [[|] added] eqn:Hadd.
    + eapply IH; [exact Hrun | by eapply Hadded | done].
    + unfold sendMessages, createMessageBatch in Hrun. rewrite call_bind in Hrun.
      pose proof (noEmptyBatch_snoc tr (Call (SendMessages b)) Htr Hb) as Htr1.
      destruct (faultAt br (length (calls tr))).
      { injection Hrun as <- <-. split; [done|]. intros ? [=]. }
      rewrite call_bind in Hrun.
      pose proof (noEmptyBatch_snoc _ (Call CreateMessageBatch) Htr1 I) as Htr2.
      destruct (faultAt br _).
      { injection Hrun as <- <-. split; [done|]. intros ? [=]. }
      destruct (tryAddMessage (messageSize br) (emptyBatch _) message)
        as [[|] added2] eqn:Hadd2.
      * eapply IH; [exact Hrun | by eapply Hadded | done].
      * cbn in Hrun. injection Hrun as <- <-. split; [done|]. intros ? [=].
Qed.

(** The [try] block of the send path when the first message fits the
    batch the block starts with. *)
Lemma queueTry_nonempty (req : HttpRequest) (queueName : option Json)
      (message : Json) (rest : list Json) (tr tr' : Trace) (o : Outcome unit) :
  queueTry br req queueName (Some (JArr (message :: rest))) tr = (o, tr') ->
  (messageSize br message <= capacityAt br (length (calls tr)))%nat ->
  noEmptyBatch tr ->
  noEmptyBatch tr'.
Proof.
  unfold queueTry, createMessageBatch. rewrite call_bind. intros Hrun Hfits Htr.
  pose proof (noEmptyBatch_snoc _ (Call CreateMessageBatch) Htr I) as Htr1.
  destruct (faultAt br (length (calls tr))); [by injection Hrun as <- <-|].
  revert Hrun. mrun. cbn [forOf forEachMessage].
  unfold tryAddMessage at 1. cbn [emptyBatch sizeInBytes maxSizeInBytes batchMessages].
  apply Nat.leb_le in Hfits. cbn [Nat.add]. rewrite Hfits. cbn [app].
  rewrite bind_run.
  destruct (forEachMessage br _ rest _) as [o1 tr1] eqn:Hloop.
  apply forEachMessage_nonempty in Hloop as [Htr2 Hlast]; [|done|done].
  destruct o1 as [b'|e1]; [|by intros [= <- <-]].
  specialize (Hlast b' eq_refl).
  unfold sendMessages. rewrite call_bind.
  pose proof (noEmptyBatch_snoc _ (Call (SendMessages b')) Htr2 Hlast) as Htr3.
  destruct (faultAt br _); [by intros [= <- <-]|].
  mrun. destruct (sentMessage _ _) as [text|e0]; [|by intros [= <- <-]].
  mrun. unfold senderClose. rewrite call_run.
  assert (noEmptyBatch
            ((((tr1 ++ [Call (SendMessages b')]) ++
               [SetRes (queueOkResponse req text)]) ++
              [Log (LogResponse (queueOkResponse req text))]) ++
             [Call SenderClose])) as Htr4.
  { repeat (apply noEmptyBatch_snoc; [|done]). done. }
  destruct (faultAt br _); by intros [= <- <-].
Qed.
End EmptyBatches.

(** C3, as the code has it.  After the loop the current batch is sent
    whether or not it holds a message: for a valid request with an empty
    [messages] array whose first three broker calls succeed, exactly one
    batch is handed to [sendMessages], and it is empty.  When the array is
    not empty and its first message fits the batch created first, no batch
    handed to [sendMessages] is empty. *)
Theorem last_batch_sent_unconditionally (br : Broker) (env : Env) (req : HttpRequest)
        (queueName : option Json) :
  (validQueueRequest env req queueName [] ->
   faultAt br 0 = None -> faultAt br 1 = None -> faultAt br 2 = None ->
   sentBatches (run (queueMessages br env req)).2 = [emptyBatch (capacityAt br 2)]) /\
  (forall message rest,
      validQueueRequest env req queueName (message :: rest) ->
      (messageSize br message <= capacityAt br 2)%nat ->
      noEmptyBatch (run (queueMessages br env req)).2).
Proof.
  split.
  - intros Hv H0 H1 H2.
    rewrite (queueMessages_valid br env req _ _ Hv), H0, H1, tryCatchFinally_trace.
    unfold queueTry, createMessageBatch. rewrite call_bind.
    unfold queueSetup at 1. calls_simpl. rewrite H2. mrun.
    cbn [forOf forEachMessage]. mrun. unfold sendMessages. rewrite call_bind.
    case_fault.
    + rewrite !sentBatches_app. reflexivity.
    + mrun. destruct (sentMessage _ _); [|rewrite !sentBatches_app; reflexivity].
      mrun. unfold senderClose. rewrite call_run.
      case_fault; rewrite !sentBatches_app; reflexivity.
  - intros message rest Hv Hfits.
    rewrite (queueMessages_valid br env req _ _ Hv).
    destruct (faultAt br 0); [by repeat constructor|].
    destruct (faultAt br 1); [by repeat constructor|].
    rewrite tryCatchFinally_trace.
    destruct (queueTry br req queueName _ _) as [o tr1] eqn:Htry.
    apply queueTry_nonempty in Htry; [|exact Hfits|by repeat constructor].
    destruct o as [[]|e]; repeat (apply noEmptyBatch_snoc; [|done]); try done.
    rewrite <- (app_nil_r tr1) in Htry.
    unfold noEmptyBatch in *. rewrite sentBatches_app in *. exact Htry.
Qed.

Lemma last_batch_sent_unconditionally_witness :
  sentBatches (run (queueMessages quietBroker sendEnv (postRequest (queueBody [])))).2
  = [emptyBatch 10] /\
  noEmptyBatch
    (run (queueMessages quietBroker sendEnv (postRequest (queueBody [JNum 4; JNum 40])))).2.
Proof.
  split.
  - apply (proj1 (last_batch_sent_unconditionally quietBroker sendEnv
                    (postRequest (queueBody [])) (Some (JStr "q1"))));
      [by split_and! | reflexivity | reflexivity | reflexivity].
  - apply (proj2 (last_batch_sent_unconditionally quietBroker sendEnv
                    (postRequest (queueBody [JNum 4; JNum 40])) (Some (JStr "q1")))
                 (JNum 4) [JNum 40]); [by split_and! | cbn; lia].
Defined.

(** C3 as stated fails: a valid request with an empty [messages] array
    makes one [sendMessages] call, with an empty batch. *)
Lemma empty_array_sends_an_empty_batch :
  sentBatches (run (queueMessages quietBroker sendEnv (postRequest (queueBody [])))).2
  = [emptyBatch 10] /\
  ~ noEmptyBatch (run (queueMessages quietBroker sendEnv (postRequest (queueBody [])))).2.
Proof.
  assert (H : sentBatches
                (run (queueMessages quietBroker sendEnv (postRequest (queueBody [])))).2
              = [emptyBatch 10]) by (vm_compute; reflexivity).
  split; [exact H|]. unfold noEmptyBatch. rewrite H.
  intros Hall. inversion Hall as [|? ? Hne]. by apply Hne.
Qed.

(** ** C2: a message too large for any batch *)

Section Oversize.
Variable br : Broker.
Hypothesis quiet : noFaults br.

End Oversize.



(** ** C6 and C10: validation and the request without a body *)

Lemma rejectedWith_status (s1 s2 : Z) (result : Outcome unit * Trace) :
  rejectedWith s1 result -> rejectedWith s2 result -> s1 = s2.
Proof. intros (_ & _ & r1 & H1 & <- & _) (_ & _ & r2 & H2 & <- & _). congruence. Qed.

(** A POST request without a body, or with the body [null], does not
    reach the checks: the destructuring in [validateQueueRequest] throws,
    and the error leaves the handler with nothing stored in [context.res]. *)
Lemma queueMessages_without_body (br : Broker) (env : Env) (req : HttpRequest) :
  req_body req = None \/ req_body req = Some JNull ->
  exists e,
    run (queueMessages br env req) =
    (Throw e, [Log (LogRequestBody (req_method req) (req_body req))]).
Proof.
  intros Hbody. unfold run, queueMessages. mrun. cbn [app].
  rewrite bind_run, validateQueueRequest_run.
  destruct Hbody as [H|H]; rewrite H; cbn [destructureBody]; eauto.
Qed.

(** C6.  A POST request without a body has no [queueName], and the
    connection string is there; the claim asks for the 400 response.
    [validateQueueRequest] destructures the body before its first check, so
    the invocation ends with a [TypeError] instead: no response is stored
    (and no broker call is made). *)
Lemma post_without_body_gets_no_400 :
  let result := run (httpTrigger quietBroker sendEnv (postRequest None)) in
  truthyStr (sendEnv !! sendEnvName) = true /\
  (exists message,
      result = (Throw (JsError "TypeError" message),
                [Log (LogRequestBody (Some "POST") None)])) /\
  finalRes result.2 = None /\
  calls result.2 = [] /\
  ~ rejectedWith 400 result.
Proof.
  split_and!; [reflexivity | eexists; reflexivity | reflexivity | reflexivity |].
  intros (H & _). discriminate.
Qed.

(** C10.  A POST request without a body, with no connection string in the
    environment, lacks both; the claim asks for the 500 response.  The
    destructuring in [validateQueueRequest] comes before the check of the
    connection string, so the invocation ends with a [TypeError] and no
    response is stored. *)
Lemma post_without_body_or_connection_gets_no_500 :
  let result := run (httpTrigger quietBroker ∅ (postRequest None)) in
  truthyStr ((∅ : Env) !! sendEnvName) = false /\
  (exists message,
      result = (Throw (JsError "TypeError" message),
                [Log (LogRequestBody (Some "POST") None)])) /\
  finalRes result.2 = None /\
  ~ rejectedWith 500 result.
Proof.
  split_and!; [reflexivity | eexists; reflexivity | reflexivity |].
  intros (H & _). discriminate.
Qed.

(** *** Requests with a body *)

(** X18.  On the send path, for a request whose body can be destructured
    (it is neither [undefined] nor [null]), and on the receive path, for
    every request: a missing or empty connection string yields a 500
    response, and, the connection string being there, a missing or empty
    [queueName] yields a 400 response; in each case the handler returns
    without a single broker call, so no client has been constructed. *)
Theorem missing_input_rejected_before_client (br : Broker) (env : Env) (req : HttpRequest) :
  (forall queueName messages,
      destructureBody (req_body req) = Ok (queueName, messages) ->
      (truthyStr (env !! "SERVICEBUS_CONNECTION_STRING") = false ->
       rejectedWith 500 (run (queueMessages br env req))) /\
      (truthyStr (env !! "SERVICEBUS_CONNECTION_STRING") = true ->
       truthy queueName = false ->
       rejectedWith 400 (run (queueMessages br env req)))) /\
  (truthyStr (env !! "SERVICE_BUS_CONNECTION_STRING") = false ->
   rejectedWith 500 (run (receiveMessages br env req))) /\
  (truthyStr (env !! "SERVICE_BUS_CONNECTION_STRING") = true ->
   truthyStr (req_query req !! "queueName") = false ->
   rejectedWith 400 (run (receiveMessages br env req))).
Proof.
  split_and!.
  - intros queueName messages Hd. split.
    + intros He. rewrite (queueMessages_no_connection br env req _ _ Hd He).
      split_and!; [done | done |]. eexists. by split_and!.
    + intros He Hq. rewrite (queueMessages_no_queueName br env req _ _ Hd He Hq).
      split_and!; [done | done |]. eexists. by split_and!.
  - intros He. rewrite (receiveMessages_no_connection br env req He).
    split_and!; [done | done |]. eexists. by split_and!.
  - intros He Hq. rewrite (receiveMessages_no_queueName br env req He Hq).
    split_and!; [done | done |]. eexists. by split_and!.
Qed.

Lemma missing_input_rejected_before_client_witness :
  (rejectedWith 500 (run (queueMessages quietBroker ∅ (postRequest (queueBody [JNum 1])))) /\
   rejectedWith 400 (run (queueMessages quietBroker sendEnv
                            (postRequest (Some (JObj [("queueName", JStr "")])))))) /\
  rejectedWith 500 (run (receiveMessages quietBroker ∅ (getRequest {[ "queueName" := "q1" ]}))) /\
  rejectedWith 400 (run (receiveMessages quietBroker receiveEnv (getRequest ∅))).
Proof.
  split_and!.
  - exact (proj1 (proj1 (missing_input_rejected_before_client quietBroker ∅
            (postRequest (queueBody [JNum 1]))) _ _ eq_refl) eq_refl).
  - exact (proj2 (proj1 (missing_input_rejected_before_client quietBroker sendEnv
            (postRequest (Some (JObj [("queueName", JStr "")])))) _ _ eq_refl)
            eq_refl eq_refl).
  - exact (proj1 (proj2 (missing_input_rejected_before_client quietBroker ∅
            (getRequest {[ "queueName" := "q1" ]}))) eq_refl).
  - exact (proj2 (proj2 (missing_input_rejected_before_client quietBroker receiveEnv
            (getRequest ∅))) eq_refl eq_refl).
Defined.

(** X19.  Both validators test the connection string first: a request that
    lacks both the connection string and the [queueName] is answered 500,
    and therefore not 400, on the send path when its body can be
    destructured, on the receive path always. *)
Theorem connection_check_precedes_queue_name (br : Broker) (env : Env) (req : HttpRequest) :
  (forall queueName messages,
      destructureBody (req_body req) = Ok (queueName, messages) ->
      truthyStr (env !! "SERVICEBUS_CONNECTION_STRING") = false ->
      truthy queueName = false ->
      rejectedWith 500 (run (queueMessages br env req)) /\
      ~ rejectedWith 400 (run (queueMessages br env req))) /\
  (truthyStr (env !! "SERVICE_BUS_CONNECTION_STRING") = false ->
   truthyStr (req_query req !! "queueName") = false ->
   rejectedWith 500 (run (receiveMessages br env req)) /\
   ~ rejectedWith 400 (run (receiveMessages br env req))).
Proof.
  assert (Hne : forall result, rejectedWith 500 result -> ~ rejectedWith 400 result).
  { intros result H500 H400. by pose proof (rejectedWith_status _ _ _ H500 H400). }
  split.
  - intros queueName messages Hd He _.
    assert (H : rejectedWith 500 (run (queueMessages br env req))); [|by split; [|apply Hne]].
    rewrite (queueMessages_no_connection br env req _ _ Hd He).
    split_and!; [done | done |]. eexists. by split_and!.
  - intros He _.
    assert (H : rejectedWith 500 (run (receiveMessages br env req))); [|by split; [|apply Hne]].
    rewrite (receiveMessages_no_connection br env req He).
    split_and!; [done | done |]. eexists. by split_and!.
Qed.

Lemma connection_check_precedes_queue_name_witness :
  (rejectedWith 500 (run (queueMessages quietBroker ∅ (postRequest (Some (JObj []))))) /\
   ~ rejectedWith 400 (run (queueMessages quietBroker ∅ (postRequest (Some (JObj [])))))) /\
  (rejectedWith 500 (run (receiveMessages quietBroker ∅ (getRequest ∅))) /\
   ~ rejectedWith 400 (run (receiveMessages quietBroker ∅ (getRequest ∅)))).
Proof.
  split.
  - exact (proj1 (connection_check_precedes_queue_name quietBroker ∅
            (postRequest (Some (JObj [])))) _ _ eq_refl eq_refl eq_refl).
  - exact (proj2 (connection_check_precedes_queue_name quietBroker ∅ (getRequest ∅))
            eq_refl eq_refl).
Defined.

(** ** C7: methods other than GET and POST *)

(** C7, as the code has it.  For every method other than GET and POST the
    handler makes no broker call and answers 405; the body carries status
    405, the message made of [Method '], the method and [ not allowed!]
    (the quote opened before the method is not closed), and the request's
    body, headers and method. *)
Theorem other_methods_get_405 (br : Broker) (env : Env) (req : HttpRequest) :
  req_method req <> Some "GET" ->
  req_method req <> Some "POST" ->
  let r :=
    {| res_status := 405;
       res_headers := {[ "Content-Type" := "application/json" ]};
       res_body :=
         {| rb_status := 405;
            rb_message :=
              Some ("Method '" +:+ match req_method req with Some m => m | None => "null" end
                    +:+ " not allowed!");
            rb_messages := None;
            rb_request := EchoBody (req_body req) (req_headers req) (req_method req) |} |} in
  run (httpTrigger br env req) = (Ok tt, [Log (LogResponse r); SetRes r]).
Proof.
  intros Hget Hpost r. unfold run, httpTrigger.
  destruct (req_method req) as [m|] eqn:Hm.
  - destruct (String.eqb_spec m "GET") as [->|_]; [done|].
    destruct (String.eqb_spec m "POST") as [->|_]; [done|].
    mrun. subst r. unfold notAllowedResponse, notAllowedMessage. by rewrite Hm.
  - mrun. subst r. unfold notAllowedResponse, notAllowedMessage. by rewrite Hm.
Qed.

Lemma other_methods_get_405_witness :
  let r :=
    {| res_status := 405;
       res_headers := {[ "Content-Type" := "application/json" ]};
       res_body :=
         {| rb_status := 405;
            rb_message := Some "Method 'PUT not allowed!";
            rb_messages := None;
            rb_request := EchoBody (Some (JStr "x")) {[ "accept" := "*/*" ]} (Some "PUT") |} |} in
  run (httpTrigger quietBroker ∅ putRequest) = (Ok tt, [Log (LogResponse r); SetRes r]).
Proof.
  apply (other_methods_get_405 quietBroker ∅ putRequest); discriminate.
Defined.

(** C7 as stated fails: for PUT the message stops at the exclamation
    mark; it does not end in a closing quote. *)
Lemma put_message_lacks_closing_quote :
  exists r,
    finalRes (run (httpTrigger quietBroker ∅ putRequest)).2 = Some r /\
    res_status r = 405 /\
    rb_message (res_body r) = Some "Method 'PUT not allowed!" /\
    rb_message (res_body r) <> Some "Method 'PUT not allowed!'".
Proof.
  eexists. split_and!; [vm_compute; reflexivity | reflexivity | reflexivity | discriminate].
Qed.

(** ** The receive path, once the [try] block is entered *)

Lemma completedMessages_completions (ms : list ServiceBusReceivedMessage) :
  completedMessages (completions ms) = ms.
Proof. induction ms as [|m ms IH]; [done|]. cbn. f_equal. exact IH. Qed.

Lemma finalRes_completions (ms : list ServiceBusReceivedMessage) :
  finalRes (completions ms) = None.
Proof. unfold finalRes. by induction ms. Qed.

Lemma sentBatches_completions (ms : list ServiceBusReceivedMessage) :
  sentBatches (completions ms) = [].
Proof. by induction ms. Qed.

Lemma calls_completions (ms : list ServiceBusReceivedMessage) :
  calls (completions ms) = map CompleteMessage ms.
Proof. induction ms as [|m ms IH]; [done|]. cbn. f_equal. exact IH. Qed.

Section ReceivePath.
Variable br : Broker.

(** The loop completes the received messages one by one, in order; it
    returns their projections once all are completed, and stops at the
    first completion that throws. *)
Lemma forEachReceived_sound (received : list ServiceBusReceivedMessage) :
  forall (acc : list ReceiveResponseMessage) (tr tr' : Trace)
         (o : Outcome (list ReceiveResponseMessage)),
    forEachReceived br received acc tr = (o, tr') ->
    exists attempted,
      tr' = tr ++ completions attempted /\
      match o with
      | Ok ms => attempted = received /\ ms = acc ++ map project received
      | Throw _ => attempted `prefix_of` received
      end.
Proof.
  induction received as [|m rest IH]; intros acc tr tr' o Hrun.
  - cbn in Hrun. injection Hrun as <- <-. exists []. by rewrite !app_nil_r.
  - cbn [forEachReceived] in Hrun. unfold completeMessage in Hrun.
    rewrite call_bind in Hrun. destruct (faultAt br (length (calls tr))).
    + injection Hrun as <- <-. exists [m]. split; [done|]. by exists rest.
    + destruct (IH _ _ _ _ Hrun) as (attempted & -> & Ho).
      exists (m :: attempted). split; [by list_norm|].
      destruct o as [ms|e].
      * destruct Ho as [-> ->]. split; [done|]. by list_norm.
      * by apply prefix_cons.
Qed.

Variable req : HttpRequest.
Variable count : option string.

Lemma receiveTry_sound (tr tr' : Trace) (o : Outcome unit) :
  receiveTry br req count tr = (o, tr') ->
  let n := requestedCount count in
  let received := deliver br (length (calls tr)) n in
  let ok := receiveOkResponse req (map project received) in
  (exists e attempted,
      o = Throw e /\ attempted `prefix_of` received /\
      tr' = tr ++ Call (ReceiveMessages n 20000) :: completions attempted)
  \/
  (tr' = tr ++ Call (ReceiveMessages n 20000) :: completions received ++
            [Log (LogMessages (map project received)); SetRes ok;
             Log (LogResponse ok); Call ReceiverClose] /\
   o = match faultAt br (length (calls (tr ++ Call (ReceiveMessages n 20000)
                                           :: completions received))) with
       | Some e => Throw (BrokerError e)
       | None => Ok tt
       end).
Proof.
  intros Hrun n received ok. revert Hrun.
  unfold receiveTry, sbReceiveMessages. rewrite call_bind. fold n.
  destruct (faultAt br (length (calls tr))) as [e|].
  { intros [= <- <-]. left. exists (BrokerError e), []. split_and!; [done| |done].
    apply prefix_nil. }
  fold received. rewrite bind_run.
  destruct (forEachReceived br received [] _) as [o1 tr1] eqn:Hloop.
  destruct (forEachReceived_sound _ _ _ _ _ Hloop) as (attempted & -> & Ho).
  destruct o1 as [ms|e].
  - destruct Ho as [-> ->]. cbn [app]. mrun. unfold receiverClose. rewrite call_run.
    fold ok. intros Hrun. right.
    replace (tr ++ Call (ReceiveMessages n 20000) :: completions received)
      with ((tr ++ [Call (ReceiveMessages n 20000)]) ++ completions received)
      by (by list_norm).
    revert Hrun. calls_simpl. rewrite !app_nil_r.
    destruct (faultAt br _); intros [= <- <-]; split; try done; by list_norm.
  - intros [= <- <-]. left. exists e, attempted. split_and!; [done | done | by list_norm].
Qed.
End ReceivePath.

Section ReceiveRuns.
Variable br : Broker.
Variables (env : Env) (req : HttpRequest).

(** A request that fails validation reaches no broker call and no 200. *)
Lemma receiveMessages_rejected :
  validReceiveRequest env req \/
  (calls (run (receiveMessages br env req)).2 = [] /\
   forall r, finalRes (run (receiveMessages br env req)).2 = Some r ->
             res_status r <> 200 /\ rb_messages (res_body r) = None).
Proof.
  destruct (validateReceiveRequest_cases env req
              [Log (LogRequestQuery (req_method req) (req_query req))])
    as [(r & H & Hr)|[Hv _]]; [|by left].
  right. unfold run, receiveMessages. mrun. cbn [app]. rewrite bind_run, H. cbn.
  split; [done|]. intros ? [= <-]. split; [done|].
  revert H. unfold validateReceiveRequest.
  repeat (match goal with |- context [if ?c then _ else _] => destruct c end);
    rewrite ?reject_run; intros [= <-]; done.
Qed.

Hypothesis valid : validReceiveRequest env req.
Hypothesis client_ok : faultAt br 0 = None.
Hypothesis receiver_ok : faultAt br 1 = None.

Let n : number := requestedCount (req_query req !! "count").
Let received : list ServiceBusReceivedMessage := deliver br 2 n.
Let ok : Response := receiveOkResponse req (map project received).
Let err (e : exn) : Response := createErrorResponse req (String_ e).

(** The three ways an invocation of the receive path ends once its [try]
    block is entered. *)
Lemma receiveMessages_entered :
  exists attempted tail,
    (run (receiveMessages br env req)).2 =
    receiveSetup env req ++ Call (ReceiveMessages n 20000) :: completions attempted ++ tail /\
    ((attempted = received /\
      tail = [Log (LogMessages (map project received)); SetRes ok;
              Log (LogResponse ok); Call ReceiverClose; Call ClientClose])
     \/
     (exists e,
         attempted = received /\
         tail = [Log (LogMessages (map project received)); SetRes ok;
                 Log (LogResponse ok); Call ReceiverClose;
                 Log (LogResponse (err e)); SetRes (err e); Call ClientClose])
     \/
     (exists e,
         attempted `prefix_of` received /\
         tail = [Log (LogResponse (err e)); SetRes (err e); Call ClientClose])).
Proof.
  rewrite (receiveMessages_valid br env req valid), client_ok, receiver_ok.
  rewrite tryCatchFinally_trace.
  destruct (receiveTry br req (req_query req !! "count") (receiveSetup env req))
    as [o tr1] eqn:Htry.
  apply receiveTry_sound in Htry. cbv zeta in Htry.
  change (length (calls (receiveSetup env req))) with 2%nat in Htry.
  fold n received ok in Htry.
  destruct Htry as [(e & attempted & -> & Hpre & ->)|[-> Ho]].
  - exists attempted. eexists. split; [by list_norm|].
    right. right. by exists e.
  - exists received. destruct o as [[]|e].
    + eexists. split; [by list_norm|]. by left.
    + eexists. split; [by list_norm|]. right. left. by exists e.
Qed.
End ReceiveRuns.

Lemma finalRes_received (env : Env) (req : HttpRequest) (n : number)
      (attempted : list ServiceBusReceivedMessage) (tail : Trace) :
  finalRes (receiveSetup env req ++ Call (ReceiveMessages n 20000)
              :: completions attempted ++ tail) = finalRes tail.
Proof.
  change (Call (ReceiveMessages n 20000) :: completions attempted ++ tail)
    with ([Call (ReceiveMessages n 20000)] ++ completions attempted ++ tail).
  rewrite !finalRes_app, finalRes_completions. by destruct (finalRes tail).
Qed.

Lemma calls_received (env : Env) (req : HttpRequest) (n : number)
      (attempted : list ServiceBusReceivedMessage) (tail : Trace) :
  calls (receiveSetup env req ++ Call (ReceiveMessages n 20000)
           :: completions attempted ++ tail) =
  [NewServiceBusClient (env !! receiveEnvName);
   CreateReceiver (req_query req !! "queueName");
   ReceiveMessages n 20000] ++ map CompleteMessage attempted ++ calls tail.
Proof.
  rewrite calls_app, calls_cons_call, calls_app, calls_completions. reflexivity.
Qed.

(** ** C5: the requested count *)

(** C5, as the code has it.  On a valid receive request whose client and
    receiver are constructed, the third broker call asks for 1 message when
    the [count] parameter is absent or empty, and for [Number(count)]
    otherwise, whether or not that is a number. *)
Theorem count_defaults_when_absent_or_empty (br : Broker) (env : Env) (req : HttpRequest) :
  validReceiveRequest env req ->
  faultAt br 0 = None ->
  faultAt br 1 = None ->
  calls (run (receiveMessages br env req)).2 !! 2%nat =
  Some (ReceiveMessages
          match req_query req !! "count" with
          | None => Int 1
          | Some s => if String.eqb s "" then Int 1 else Number s
          end
          20000).
Proof.
  intros Hv H0 H1.
  destruct (receiveMessages_entered br env req Hv H0 H1) as (attempted & tail & -> & _).
  rewrite calls_received. cbn [app lookup list_lookup]. do 2 f_equal.
  unfold requestedCount, truthyStr, NumberOf.
  destruct (req_query req !! "count") as [s|]; [|done]. by destruct (String.eqb s "").
Qed.

Lemma count_defaults_when_absent_or_empty_witness :
  calls (run (receiveMessages quietBroker receiveEnv (getRequest (receiveQuery "3")))).2
    !! 2%nat = Some (ReceiveMessages (Int 3) 20000) /\
  calls (run (receiveMessages quietBroker receiveEnv (getRequest (receiveQuery "")))).2
    !! 2%nat = Some (ReceiveMessages (Int 1) 20000).
Proof.
  split.
  - apply (count_defaults_when_absent_or_empty quietBroker receiveEnv
             (getRequest (receiveQuery "3"))); [by split | reflexivity | reflexivity].
  - apply (count_defaults_when_absent_or_empty quietBroker receiveEnv
             (getRequest (receiveQuery ""))); [by split | reflexivity | reflexivity].
Defined.

(** C5 as stated fails: a [count] that does not coerce to a number is
    passed on as [NaN]; the receive call is not asked for 1 message. *)
Lemma non_numeric_count_requests_NaN :
  NumberOf (Some "abc") = NaN /\
  requestedCount (Some "abc") <> Int 1 /\
  calls (run (receiveMessages quietBroker receiveEnv (getRequest (receiveQuery "abc")))).2
    !! 2%nat = Some (ReceiveMessages NaN 20000).
Proof. split_and!; [reflexivity | discriminate | vm_compute; reflexivity]. Qed.

(** ** C4: what is returned has been acknowledged *)





(** ** C8: closing the handles *)

Lemma setup_and_packing_leave_sender_open (env : Env) (req : HttpRequest)
      (queueName : option Json) (ev : Trace) :
  Forall packingEvent ev ->
  ~ In SenderClose (calls (queueSetup env req queueName) ++ calls ev ++ [ClientClose]).
Proof.
  intros Hev Hin. apply in_app_or in Hin as [Hin|Hin].
  { cbn in Hin. by destruct Hin as [?|[?|[]]]. }
  apply in_app_or in Hin as [Hin|Hin].
  - apply list_elem_of_In in Hin.
    destruct (packing_calls _ _ Hev Hin) as [?|[b ?]]; discriminate.
  - cbn in Hin. by destruct Hin as [?|[]].
Qed.

Lemma setup_and_completions_leave_receiver_open (env : Env) (req : HttpRequest) (n : number)
      (attempted : list ServiceBusReceivedMessage) :
  ~ In ReceiverClose
      (calls (receiveSetup env req ++ Call (ReceiveMessages n 20000)
                :: completions attempted) ++ [ClientClose]).
Proof.
  rewrite calls_app, calls_cons_call, calls_completions.
  intros Hin. apply in_app_or in Hin as [Hin|Hin].
  - apply in_app_or in Hin as [Hin|Hin].
    { cbn in Hin. by destruct Hin as [?|[?|[]]]. }
    destruct Hin as [?|Hin]; [discriminate|].
    apply in_map_iff in Hin as (m & ? & _). discriminate.
  - cbn in Hin. by destruct Hin as [?|[]].
Qed.

(** C8, as the code has it.  Once the [try] block of a handler is entered
    (the request is valid and the client and the sender or receiver were
    constructed), closing the client is the last broker call of the
    invocation on every path, also when a call in the block throws.  When
    the block ends normally, and so whenever the invocation ends with the
    200 response, the sender, or receiver, is closed just before the
    client.  When the block throws, the close of the sender, or receiver,
    is either the very call that threw, made just before the client is
    closed, or it is not made at all. *)
Theorem client_closed_last (br : Broker) (env : Env) (req : HttpRequest) :
  (forall queueName items,
      validQueueRequest env req queueName items ->
      faultAt br 0 = None -> faultAt br 1 = None ->
      let tr := (run (queueMessages br env req)).2 in
      (exists pre, calls tr = pre ++ [ClientClose]) /\
      (forall tr1,
          queueTry br req queueName (Some (JArr items)) (queueSetup env req queueName)
          = (Ok tt, tr1) ->
          exists pre, calls tr = pre ++ [SenderClose; ClientClose]) /\
      (forall e tr1,
          queueTry br req queueName (Some (JArr items)) (queueSetup env req queueName)
          = (Throw e, tr1) ->
          (exists pre s, e = BrokerError s /\
                         calls tr = pre ++ [SenderClose; ClientClose] /\
                         faultAt br (length pre) = Some s) \/
          ~ In SenderClose (calls tr))) /\
  (forall r,
      finalRes (run (queueMessages br env req)).2 = Some r -> res_status r = 200 ->
      exists pre, calls (run (queueMessages br env req)).2 = pre ++ [SenderClose; ClientClose]) /\
  (validReceiveRequest env req ->
   faultAt br 0 = None -> faultAt br 1 = None ->
   let tr := (run (receiveMessages br env req)).2 in
   (exists pre, calls tr = pre ++ [ClientClose]) /\
   (forall tr1,
       receiveTry br req (req_query req !! "count") (receiveSetup env req) = (Ok tt, tr1) ->
       exists pre, calls tr = pre ++ [ReceiverClose; ClientClose]) /\
   (forall e tr1,
       receiveTry br req (req_query req !! "count") (receiveSetup env req) = (Throw e, tr1) ->
       (exists pre s, e = BrokerError s /\
                      calls tr = pre ++ [ReceiverClose; ClientClose] /\
                      faultAt br (length pre) = Some s) \/
       ~ In ReceiverClose (calls tr))) /\
  (forall r,
      finalRes (run (receiveMessages br env req)).2 = Some r -> res_status r = 200 ->
      exists pre,
        calls (run (receiveMessages br env req)).2 = pre ++ [ReceiverClose; ClientClose]).
Proof.
  split_and!.
  - intros queueName items Hv H0 H1 tr. subst tr.
    rewrite (queueMessages_valid br env req _ _ Hv), H0, H1, tryCatchFinally_trace.
    split_and!.
    + rewrite calls_app. eexists. reflexivity.
    + intros tr1 Htry. rewrite Htry.
      destruct (queueTry_sound br req _ _ _ _ _ Htry)
        as (ev & Hev & _ & [(message & _ & _ & -> & _)|(e & rest & [=] & _)]).
      exists (calls (queueSetup env req queueName ++ ev)).
      rewrite !calls_app. calls_simpl. by list_norm.
    + intros e tr1 Htry. rewrite Htry.
      destruct (queueTry_sound br req _ _ _ _ _ Htry)
        as (ev & Hev & _ & [(message & _ & _ & -> & Ho)|(e' & rest & _ & -> & _)]).
      * left.
        destruct (faultAt br (length (calls (queueSetup env req queueName ++ ev))))
          as [s|] eqn:Hs; [|discriminate Ho].
        injection Ho as ->.
        exists (calls (queueSetup env req queueName ++ ev)), s.
        split_and!; [done | | done].
        rewrite !calls_app. calls_simpl. by list_norm.
      * right. rewrite !calls_app. calls_simpl. rewrite app_nil_r, <- app_assoc.
        by apply setup_and_packing_leave_sender_open.
  - intros r Hres H200.
    destruct (queueMessages_rejected br env req) as [(queueName & items & Hv)|[_ Hno]];
      [|by destruct (Hno r Hres)].
    destruct (faultAt br 0) as [e0|] eqn:H0.
    { rewrite (queueMessages_valid br env req _ _ Hv), H0 in Hres. discriminate. }
    destruct (faultAt br 1) as [e1|] eqn:H1.
    { rewrite (queueMessages_valid br env req _ _ Hv), H0, H1 in Hres. discriminate. }
    destruct (queueMessages_entered br env req _ _ Hv H0 H1)
      as (ev & tail & Htr & Hev & _ & Hcases).
    rewrite Htr, !finalRes_app in Hres. rewrite Htr.
    destruct Hcases
      as [(message & _ & _ & ->)|[(message & e & _ & _ & ->)|(e & rest & _ & ->)]].
    + exists (calls (queueSetup env req queueName) ++ calls ev).
      rewrite !calls_app, <- app_assoc. reflexivity.
    + injection Hres as <-. discriminate.
    + injection Hres as <-. discriminate.
  - intros Hv H0 H1 tr. subst tr.
    rewrite (receiveMessages_valid br env req Hv), H0, H1, tryCatchFinally_trace.
    split_and!.
    + rewrite calls_app. eexists. reflexivity.
    + intros tr1 Htry. rewrite Htry.
      apply receiveTry_sound in Htry. cbv zeta in Htry.
      destruct Htry as [(e & attempted & [=] & _)|[-> _]].
      rewrite !calls_app, calls_cons_call, !calls_app. calls_simpl.
      match goal with
      | |- exists pre, (?a ++ ?b :: ?c ++ [_]) ++ [_] = _ => exists (a ++ b :: c)
      end.
      by list_norm.
    + intros e tr1 Htry. rewrite Htry.
      apply receiveTry_sound in Htry. cbv zeta in Htry.
      destruct Htry as [(e' & attempted & _ & _ & ->)|[-> Ho]].
      * right. rewrite calls_app. calls_simpl. rewrite app_nil_r.
        apply setup_and_completions_leave_receiver_open.
      * left.
        match type of Ho with
        | _ = match faultAt br ?k with _ => _ end =>
            destruct (faultAt br k) as [s|] eqn:Hs; [|discriminate Ho]
        end.
        injection Ho as ->.
        rewrite !calls_app, calls_cons_call, !calls_app. calls_simpl.
        rewrite app_nil_r.
        match goal with
        | |- exists pre _, _ /\ (?a ++ ?b :: ?c ++ [_]) ++ [_] = _ /\ _ =>
            exists (a ++ b :: c), s
        end.
        split_and!; [done | by list_norm |].
        rewrite !calls_app, calls_cons_call in Hs. exact Hs.
  - intros r Hres H200.
    destruct (receiveMessages_rejected br env req) as [Hv|[_ Hno]];
      [|by destruct (Hno r Hres)].
    destruct (faultAt br 0) as [e0|] eqn:H0.
    { rewrite (receiveMessages_valid br env req Hv), H0 in Hres. discriminate. }
    destruct (faultAt br 1) as [e1|] eqn:H1.
    { rewrite (receiveMessages_valid br env req Hv), H0, H1 in Hres. discriminate. }
    destruct (receiveMessages_entered br env req Hv H0 H1) as (attempted & tail & Htr & Hcases).
    rewrite Htr, finalRes_received in Hres. rewrite Htr, calls_received.
    destruct Hcases as [[_ ->]|[(e & _ & ->)|(e & _ & ->)]].
    + eexists. rewrite !app_assoc. reflexivity.
    + injection Hres as <-. discriminate.
    + injection Hres as <-. discriminate.
Qed.

Lemma client_closed_last_witness :
  let post := postRequest (queueBody [JNum 1]) in
  let get := getRequest (receiveQuery "2") in
  let unavailable := BrokerError "ServiceBusError: unavailable" in
  (exists pre,
      calls (run (queueMessages (faultyBroker 3) sendEnv post)).2 = pre ++ [ClientClose]) /\
  (exists pre,
      calls (run (queueMessages quietBroker sendEnv post)).2
      = pre ++ [SenderClose; ClientClose]) /\
  ((exists pre s,
       unavailable = BrokerError s /\
       calls (run (queueMessages (faultyBroker 4) sendEnv post)).2
       = pre ++ [SenderClose; ClientClose] /\
       faultAt (faultyBroker 4) (length pre) = Some s) \/
   ~ In SenderClose (calls (run (queueMessages (faultyBroker 4) sendEnv post)).2)) /\
  (exists pre,
      calls (run (queueMessages quietBroker sendEnv
                    (postRequest (queueBody [JNum 4; JNum 7])))).2
      = pre ++ [SenderClose; ClientClose]) /\
  (exists pre,
      calls (run (receiveMessages (stockedFaultyBroker 2) receiveEnv get)).2
      = pre ++ [ClientClose]) /\
  (exists pre,
      calls (run (receiveMessages stockedBroker receiveEnv get)).2
      = pre ++ [ReceiverClose; ClientClose]) /\
  ((exists pre s,
       unavailable = BrokerError s /\
       calls (run (receiveMessages (stockedFaultyBroker 4) receiveEnv get)).2
       = pre ++ [ReceiverClose; ClientClose] /\
       faultAt (stockedFaultyBroker 4) (length pre) = Some s) \/
   ~ In ReceiverClose
       (calls (run (receiveMessages (stockedFaultyBroker 4) receiveEnv get)).2)) /\
  (exists pre,
      calls (run (receiveMessages stockedBroker receiveEnv
                    (getRequest (receiveQuery "3")))).2
      = pre ++ [ReceiverClose; ClientClose]).
Proof.
  intros post get unavailable.
  assert (Hsend : validQueueRequest sendEnv post (Some (JStr "q1")) [JNum 1])
    by (by split_and!).
  assert (Hreceive : validReceiveRequest receiveEnv get) by (by split).
  split_and!.
  - exact (proj1 (proj1 (client_closed_last (faultyBroker 3) sendEnv post)
                    (Some (JStr "q1")) [JNum 1] Hsend eq_refl eq_refl)).
  - eapply (proj1 (proj2 (proj1 (client_closed_last quietBroker sendEnv post)
                            (Some (JStr "q1")) [JNum 1] Hsend eq_refl eq_refl))).
    vm_compute. reflexivity.
  - eapply (proj2 (proj2 (proj1 (client_closed_last (faultyBroker 4) sendEnv post)
                            (Some (JStr "q1")) [JNum 1] Hsend eq_refl eq_refl))
                  unavailable).
    vm_compute. reflexivity.
  - apply (proj1 (proj2 (client_closed_last quietBroker sendEnv
                           (postRequest (queueBody [JNum 4; JNum 7]))))
                 (queueOkResponse (postRequest (queueBody [JNum 4; JNum 7]))
                    "Sent 2 messages to queue: 'q1'"));
      [vm_compute; reflexivity | reflexivity].
  - exact (proj1 (proj1 (proj2 (proj2 (client_closed_last (stockedFaultyBroker 2)
                                         receiveEnv get)))
                    Hreceive eq_refl eq_refl)).
  - eapply (proj1 (proj2 (proj1 (proj2 (proj2 (client_closed_last stockedBroker
                                                 receiveEnv get)))
                            Hreceive eq_refl eq_refl))).
    vm_compute. reflexivity.
  - eapply (proj2 (proj2 (proj1 (proj2 (proj2 (client_closed_last (stockedFaultyBroker 4)
                                                 receiveEnv get)))
                            Hreceive eq_refl eq_refl))
                  unavailable).
    vm_compute. reflexivity.
  - apply (proj2 (proj2 (proj2 (client_closed_last stockedBroker receiveEnv
                                  (getRequest (receiveQuery "3")))))
                 (receiveOkResponse (getRequest (receiveQuery "3"))
                    [project (sampleMessage 1); project (sampleMessage 2);
                     project (sampleMessage 3)]));
      [vm_compute; reflexivity | reflexivity].
Defined.

(** C8 as stated fails: when [sendMessages] throws, the handler goes to
    its [catch] block and then closes the client; the sender is not
    closed.  The same holds for the receiver when [receiveMessages]
    throws. *)
Lemma handle_left_open_when_a_call_throws :
  (calls (run (queueMessages (faultyBroker 3) sendEnv (postRequest (queueBody [JNum 1])))).2
   = [NewServiceBusClient (Some "Endpoint=sb://example/");
      CreateSender (Some (JStr "q1"));
      CreateMessageBatch;
      SendMessages {| maxSizeInBytes := 10; sizeInBytes := 1; batchMessages := [JNum 1] |};
      ClientClose] /\
   ~ In SenderClose
       (calls (run (queueMessages (faultyBroker 3) sendEnv
                      (postRequest (queueBody [JNum 1])))).2)) /\
  (calls (run (receiveMessages (faultyBroker 2) receiveEnv (getRequest (receiveQuery "2")))).2
   = [NewServiceBusClient (Some "Endpoint=sb://example/");
      CreateReceiver (Some "q1");
      ReceiveMessages (Int 2) 20000;
      ClientClose] /\
   ~ In ReceiverClose
       (calls (run (receiveMessages (faultyBroker 2) receiveEnv
                      (getRequest (receiveQuery "2")))).2)).
Proof.
  assert (H1 : calls (run (queueMessages (faultyBroker 3) sendEnv
                             (postRequest (queueBody [JNum 1])))).2
               = [NewServiceBusClient (Some "Endpoint=sb://example/");
                  CreateSender (Some (JStr "q1"));
                  CreateMessageBatch;
                  SendMessages {| maxSizeInBytes := 10; sizeInBytes := 1;
                                  batchMessages := [JNum 1] |};
                  ClientClose]) by (vm_compute; reflexivity).
  assert (H2 : calls (run (receiveMessages (faultyBroker 2) receiveEnv
                             (getRequest (receiveQuery "2")))).2
               = [NewServiceBusClient (Some "Endpoint=sb://example/");
                  CreateReceiver (Some "q1");
                  ReceiveMessages (Int 2) 20000;
                  ClientClose]) by (vm_compute; reflexivity).
  split; (split; [done|]).
  - rewrite H1. cbn. intros [H|[H|[H|[H|[H|[]]]]]]; discriminate.
  - rewrite H2. cbn. intros [H|[H|[H|[H|[]]]]]; discriminate.
Qed.

(** ** C9: which errors become a 500 response *)




(** * Further properties of the handlers *)

(** ** The [messages] checks of [validateQueueRequest] *)



(** ** Validation decides whether the broker is reached *)

(** X2.  A handler makes a broker call exactly when its request passes
    validation: on the send path, a body with a truthy [queueName] and an
    array of [messages] together with the connection string; on the receive
    path, a non-empty [queueName] parameter together with the connection
    string. *)
Theorem broker_reached_iff_valid (br : Broker) (env : Env) (req : HttpRequest) :
  (calls (run (queueMessages br env req)).2 <> [] <->
   exists queueName items, validQueueRequest env req queueName items) /\
  (calls (run (receiveMessages br env req)).2 <> [] <->
   validReceiveRequest env req).
Proof.
  split; split.
  - intros Hcalls.
    destruct (queueMessages_rejected br env req) as [Hv|[Hno _]]; [done | by destruct Hcalls].
  - intros (queueName & items & Hv).
    rewrite (queueMessages_valid br env req _ _ Hv).
    destruct (faultAt br 0); [done|]. destruct (faultAt br 1); [done|].
    rewrite tryCatchFinally_trace, calls_app. by destruct (calls _).
  - intros Hcalls.
    destruct (receiveMessages_rejected br env req) as [Hv|[Hno _]]; [done | by destruct Hcalls].
  - intros Hv. rewrite (receiveMessages_valid br env req Hv).
    destruct (faultAt br 0); [done|]. destruct (faultAt br 1); [done|].
    rewrite tryCatchFinally_trace, calls_app. by destruct (calls _).
Qed.

(** ** Which broker calls a handler can make *)

Lemma calls_entered_send (env : Env) (req : HttpRequest) (queueName : option Json)
      (ev tail : Trace) :
  calls (queueSetup env req queueName ++ ev ++ tail) =
  [NewServiceBusClient (env !! sendEnvName); CreateSender queueName]
    ++ calls ev ++ calls tail.
Proof. by rewrite !calls_app. Qed.

(** A property of calls that holds of each call the send path can make
    holds of all the calls of an invocation. *)
Lemma queueMessages_calls (P : BrokerCall -> Prop) (br : Broker) (env : Env)
      (req : HttpRequest) :
  (forall queueName items,
      validQueueRequest env req queueName items ->
      P (NewServiceBusClient (env !! sendEnvName)) /\ P (CreateSender queueName)) ->
  P CreateMessageBatch ->
  (forall b, P (SendMessages b)) ->
  P SenderClose ->
  P ClientClose ->
  Forall P (calls (run (queueMessages br env req)).2).
Proof.
  intros Hsetup Hcreate Hsend Hclose Hclient.
  destruct (queueMessages_rejected br env req) as [(queueName & items & Hv)|[-> _]];
    [|constructor].
  destruct (Hsetup _ _ Hv) as [Hnew Hsender].
  destruct (faultAt br 0) as [e0|] eqn:H0.
  { rewrite (queueMessages_valid br env req _ _ Hv), H0. by repeat constructor. }
  destruct (faultAt br 1) as [e1|] eqn:H1.
  { rewrite (queueMessages_valid br env req _ _ Hv), H0, H1. by repeat constructor. }
  destruct (queueMessages_entered br env req _ _ Hv H0 H1)
    as (ev & tail & -> & Hev & _ & Hcases).
  rewrite calls_entered_send. apply Forall_app. split; [by repeat constructor|].
  apply Forall_app. split.
  - apply Forall_forall. intros c Hc.
    destruct (packing_calls ev c Hev Hc) as [->|[b ->]]; [done | apply Hsend].
  - destruct Hcases as [(message & _ & _ & ->)|[(message & e & _ & _ & ->)|(e & rest & _ & ->)]]; by repeat constructor.
Qed.

(** The same for the receive path. *)
Lemma receiveMessages_calls (P : BrokerCall -> Prop) (br : Broker) (env : Env)
      (req : HttpRequest) :
  (validReceiveRequest env req ->
   P (NewServiceBusClient (env !! receiveEnvName)) /\
   P (CreateReceiver (req_query req !! "queueName"))) ->
  (forall n w, P (ReceiveMessages n w)) ->
  (forall m, P (CompleteMessage m)) ->
  P ReceiverClose ->
  P ClientClose ->
  Forall P (calls (run (receiveMessages br env req)).2).
Proof.
  intros Hsetup Hreceive Hcomplete Hclose Hclient.
  destruct (receiveMessages_rejected br env req) as [Hv|[-> _]]; [|constructor].
  destruct (Hsetup Hv) as [Hnew Hreceiver].
  destruct (faultAt br 0) as [e0|] eqn:H0.
  { rewrite (receiveMessages_valid br env req Hv), H0. by repeat constructor. }
  destruct (faultAt br 1) as [e1|] eqn:H1.
  { rewrite (receiveMessages_valid br env req Hv), H0, H1. by repeat constructor. }
  destruct (receiveMessages_entered br env req Hv H0 H1) as (attempted & tail & -> & Hcases).
  rewrite calls_received. repeat (apply List.Forall_cons; [done|]).
  apply Forall_app. split.
  - apply Forall_forall. intros c Hc. apply list_elem_of_fmap in Hc as (m & -> & _).
    apply Hcomplete.
  - destruct Hcases as [[_ ->]|[(e & _ & ->)|(e & _ & ->)]]; by repeat constructor.
Qed.

(** [httpTrigger] is the receive path on GET, the send path on POST, and
    the 405 answer otherwise; the method is compared as it is, so [get] is
    not GET. *)
Lemma httpTrigger_run (br : Broker) (env : Env) (req : HttpRequest) :
  run (httpTrigger br env req) =
  match req_method req with
  | Some m =>
      if String.eqb m "GET" then run (receiveMessages br env req)
      else if String.eqb m "POST" then run (queueMessages br env req)
      else (Ok tt, [Log (LogResponse (notAllowedResponse req));
                    SetRes (notAllowedResponse req)])
  | None => (Ok tt, [Log (LogResponse (notAllowedResponse req));
                     SetRes (notAllowedResponse req)])
  end.
Proof.
  unfold run, httpTrigger. destruct (req_method req) as [m|]; [|by mrun].
  destruct (String.eqb m "GET"); [done|]. destruct (String.eqb m "POST"); [done|]. by mrun.
Qed.

(** X3.  Whatever the request and whatever the broker does, a client is only
    ever constructed with a connection string that is there and not empty,
    a sender with a truthy queue name, and a receiver with a non-empty queue
    name. *)
Theorem handles_constructed_with_arguments (br : Broker) (env : Env) (req : HttpRequest) :
  Forall constructedWithArguments (calls (run (httpTrigger br env req)).2).
Proof.
  rewrite httpTrigger_run. destruct (req_method req) as [m|]; [|constructor].
  destruct (String.eqb m "GET"); [|destruct (String.eqb m "POST"); [|constructor]].
  - apply receiveMessages_calls; first [done | by intros [He Hq]].
  - apply queueMessages_calls; first [done | by intros queueName items (_ & He & Hq)].
Qed.

(** X4.  A GET invocation makes no call of the send side (no sender, no batch,
    no send), a POST invocation no call of the receive side (no receiver,
    no receive, no completion), and an invocation with any other method no
    broker call at all. *)
Theorem method_selects_one_side (br : Broker) (env : Env) (req : HttpRequest) :
  (req_method req = Some "GET" ->
   Forall (fun c => ~ senderSide c) (calls (run (httpTrigger br env req)).2)) /\
  (req_method req = Some "POST" ->
   Forall (fun c => ~ receiverSide c) (calls (run (httpTrigger br env req)).2)) /\
  (req_method req <> Some "GET" -> req_method req <> Some "POST" ->
   calls (run (httpTrigger br env req)).2 = []).
Proof.
  split_and!.
  - intros Hm. rewrite httpTrigger_run, Hm. cbn [String.eqb Ascii.eqb Bool.eqb].
    apply receiveMessages_calls; intros; cbn; tauto.
  - intros Hm. rewrite httpTrigger_run, Hm. cbn [String.eqb Ascii.eqb Bool.eqb].
    apply queueMessages_calls; intros; cbn; tauto.
  - intros Hget Hpost. rewrite httpTrigger_run.
    destruct (req_method req) as [m|]; [|done].
    destruct (String.eqb_spec m "GET") as [->|_]; [done|].
    by destruct (String.eqb_spec m "POST") as [->|_].
Qed.

Lemma method_selects_one_side_witness :
  Forall (fun c => ~ senderSide c)
         (calls (run (httpTrigger stockedBroker receiveEnv (getRequest (receiveQuery "2")))).2) /\
  Forall (fun c => ~ receiverSide c)
         (calls (run (httpTrigger quietBroker sendEnv (postRequest (queueBody [JNum 1])))).2) /\
  calls (run (httpTrigger quietBroker sendEnv putRequest)).2 = [].
Proof.
  split_and!.
  - apply (proj1 (method_selects_one_side stockedBroker receiveEnv
                    (getRequest (receiveQuery "2")))). reflexivity.
  - apply (proj1 (proj2 (method_selects_one_side quietBroker sendEnv
                           (postRequest (queueBody [JNum 1]))))). reflexivity.
  - apply (proj2 (proj2 (method_selects_one_side quietBroker sendEnv putRequest)));
      discriminate.
Defined.

(** ** The send path when everything fits *)

Section Fitting.
Variable br : Broker.
Hypothesis quiet : noFaults br.

(** With a broker that does not throw and messages that each fit an empty
    batch, the loop ends normally. *)
Lemma forEachMessage_fits (items : list Json) :
  Forall (alwaysFits br) items ->
  forall (b : Batch) (tr : Trace),
    exists b' ev, forEachMessage br b items tr = (Ok b', tr ++ ev).
Proof.
  induction 1 as [|x items Hx _ IH]; intros b tr.
  - exists b, []. by rewrite app_nil_r.
  - cbn [forEachMessage].
    destruct (tryAddMessage (messageSize br) b x) as [[|] added] eqn:Hadd.
    + apply IH.
    + unfold sendMessages, createMessageBatch. rewrite call_bind, quiet, call_bind, quiet.
      unfold tryAddMessage. cbn [emptyBatch sizeInBytes maxSizeInBytes Nat.add batchMessages].
      assert (Hyes : forall n, (messageSize br x <=? capacityAt br n)%nat = true)
        by (intros n; apply Nat.leb_le, Hx).
      rewrite Hyes.
      match goal with
      | |- context [forEachMessage br ?b1 _ ?tr1] =>
          destruct (IH b1 tr1) as (b' & ev & ->)
      end.
      exists b', ([Call (SendMessages b); Call CreateMessageBatch] ++ ev). by list_norm.
Qed.
End Fitting.

(** X5.  On a broker that does not throw, a valid request with queue name [q]
    whose messages each fit an empty batch is answered 200, with the message
    "Sent N messages to queue: 'q'" where N is the length of the array in
    decimal, and the request's body, headers and method echoed; the handler
    returns normally. *)
Theorem send_succeeds_when_all_fit (br : Broker) (env : Env) (req : HttpRequest)
        (q : string) (items : list Json) :
  validQueueRequest env req (Some (JStr q)) items ->
  noFaults br ->
  Forall (alwaysFits br) items ->
  (run (queueMessages br env req)).1 = Ok tt /\
  finalRes (run (queueMessages br env req)).2 =
  Some {| res_status := 200;
          res_headers := {[ "Content-Type" := "application/json" ]};
          res_body :=
            {| rb_status := 200;
               rb_message :=
                 Some ("Sent " +:+ decimal (Z.of_nat (length items))
                       +:+ " messages to queue: '" +:+ q +:+ "'");
               rb_messages := None;
               rb_request := EchoBody (req_body req) (req_headers req) (req_method req) |} |}.
Proof.
  intros Hv quiet Hfit.
  rewrite (queueMessages_valid br env req _ _ Hv), !quiet, tryCatchFinally_run.
  unfold queueTry, createMessageBatch. rewrite call_bind, quiet. mrun.
  cbn [forOf]. rewrite bind_run.
  match goal with
  | |- context [forEachMessage br ?b1 _ ?tr1] =>
      destruct (forEachMessage_fits br quiet items Hfit b1 tr1) as (b' & ev & ->)
  end.
  unfold sendMessages. rewrite call_bind, quiet, lift_bind, sentMessage_string. mrun.
  unfold senderClose. rewrite call_run, !quiet. cbn [fst snd]. split; [done|].
  rewrite finalRes_call, finalRes_call, finalRes_log. apply finalRes_snoc.
Qed.

Lemma send_succeeds_when_all_fit_witness :
  let req := postRequest (queueBody [JNum 4; JNum 4; JNum 4; JNum 7]) in
  (run (queueMessages quietBroker sendEnv req)).1 = Ok tt /\
  finalRes (run (queueMessages quietBroker sendEnv req)).2 =
  Some {| res_status := 200;
          res_headers := {[ "Content-Type" := "application/json" ]};
          res_body :=
            {| rb_status := 200;
               rb_message := Some "Sent 4 messages to queue: 'q1'";
               rb_messages := None;
               rb_request := EchoBody (req_body req) (req_headers req) (req_method req) |} |}.
Proof.
  apply (send_succeeds_when_all_fit quietBroker sendEnv
           (postRequest (queueBody [JNum 4; JNum 4; JNum 4; JNum 7]))
           "q1" [JNum 4; JNum 4; JNum 4; JNum 7]).
  - by split_and!.
  - intros n. reflexivity.
  - repeat constructor; intros k; cbn; lia.
Defined.

(** ** The send path, whatever fails *)

(** X6.  For a valid request, whatever the broker does and wherever the
    invocation stops, the batches handed to [sendMessages], concatenated in
    order, are a prefix of the request's messages, and each of them holds
    messages whose total size is within the capacity it was created with:
    no message is handed over twice, out of order, or in an overfull
    batch. *)
Theorem sent_batches_are_a_prefix (br : Broker) (env : Env) (req : HttpRequest)
        (queueName : option Json) (items : list Json) :
  validQueueRequest env req queueName items ->
  let tr := (run (queueMessages br env req)).2 in
  concat (map batchMessages (sentBatches tr)) `prefix_of` items /\
  Forall (withinCapacity br tr) (sentBatches tr).
Proof.
  intros Hv tr. subst tr.
  destruct (faultAt br 0) as [e0|] eqn:H0.
  { rewrite (queueMessages_valid br env req _ _ Hv), H0. split; [apply prefix_nil|constructor]. }
  destruct (faultAt br 1) as [e1|] eqn:H1.
  { rewrite (queueMessages_valid br env req _ _ Hv), H0, H1.
    split; [apply prefix_nil|constructor]. }
  destruct (queueMessages_entered br env req _ _ Hv H0 H1)
    as (ev & tail & Htr & Hev & Hsent & Hcases).
  assert (Hs : sentBatches (run (queueMessages br env req)).2 = sentBatches ev).
  { rewrite Htr. apply sentBatches_entered.
    by destruct Hcases as [(message & _ & _ & ->)|[(message & e & _ & _ & ->)|(e & rest & _ & ->)]]. }
  rewrite Hs. split; [|done].
  destruct Hcases as [(message & _ & <- & _)|[(message & e & _ & <- & _)|(e & rest & <- & _)]]; [done | done |].
  by exists rest.
Qed.

Lemma sent_batches_are_a_prefix_witness :
  let tr := (run (queueMessages (faultyBroker 5) sendEnv
                    (postRequest (queueBody [JNum 6; JNum 6; JNum 6])))).2 in
  concat (map batchMessages (sentBatches tr)) `prefix_of` [JNum 6; JNum 6; JNum 6] /\
  Forall (withinCapacity (faultyBroker 5) tr) (sentBatches tr).
Proof.
  apply (sent_batches_are_a_prefix (faultyBroker 5) sendEnv
           (postRequest (queueBody [JNum 6; JNum 6; JNum 6]))
           (Some (JStr "q1")) [JNum 6; JNum 6; JNum 6]).
  by split_and!.
Defined.

Lemma sentBatches_snoc_send (tr : Trace) (b : Batch) :
  sentBatches (tr ++ [Call (SendMessages b)]) = sentBatches tr ++ [b].
Proof. by rewrite sentBatches_app. Qed.

Lemma sentBatches_snoc_other (tr : Trace) (e : Event) :
  match e with Call (SendMessages _) => False | _ => True end ->
  sentBatches (tr ++ [e]) = sentBatches tr.
Proof. intros He. rewrite sentBatches_app. destruct e as [[]| |]; by rewrite ?app_nil_r. Qed.

(** What the [catch] and [finally] blocks add to the trace sends nothing. *)
Lemma sentBatches_finally (br : Broker) (req : HttpRequest) (body : M unit) (tr : Trace) :
  sentBatches (tryCatchFinally body (catchBlock req) (clientClose br) tr).2 =
  sentBatches (body tr).2.
Proof.
  rewrite tryCatchFinally_trace. destruct (body tr) as [[[]|e] tr1]; cbn [snd];
    rewrite !sentBatches_app; cbn; by rewrite ?app_nil_r.
Qed.

Section BatchCount.
Variable br : Broker.

(** The loop sends at most one batch per message. *)
Lemma forEachMessage_count (items : list Json) :
  forall (b : Batch) (tr tr' : Trace) (o : Outcome Batch),
    forEachMessage br b items tr = (o, tr') ->
    (length (sentBatches tr') <= length (sentBatches tr) + length items)%nat.
Proof.
  induction items as [|x items IH]; intros b tr tr' o Hrun.
  - cbn in Hrun. injection Hrun as <- <-. lia.
  - cbn [forEachMessage] in Hrun. cbn [length].
    destruct (tryAddMessage (messageSize br) b x) as [[|] added] eqn:Hadd.
    + apply IH in Hrun. lia.
    + unfold sendMessages, createMessageBatch in Hrun. rewrite call_bind in Hrun.
      destruct (faultAt br (length (calls tr))).
      { injection Hrun as <- <-. rewrite sentBatches_snoc_send, length_app. cbn. lia. }
      rewrite call_bind in Hrun.
      assert (Hlen : length (sentBatches ((tr ++ [Call (SendMessages b)])
                                           ++ [Call CreateMessageBatch]))
                     = S (length (sentBatches tr))).
      { rewrite sentBatches_snoc_other by done.
        rewrite sentBatches_snoc_send, length_app. cbn. lia. }
      destruct (faultAt br _).
      { injection Hrun as <- <-. lia. }
      destruct (tryAddMessage (messageSize br) (emptyBatch _) x) as [[|] added2].
      * apply IH in Hrun. lia.
      * cbn in Hrun. injection Hrun as <- <-. lia.
Qed.

(** The [try] block of the send path sends at most one batch more than
    there are messages. *)
Lemma queueTry_count (req : HttpRequest) (queueName : option Json) (items : list Json)
      (tr : Trace) :
  (length (sentBatches (queueTry br req queueName (Some (JArr items)) tr).2)
   <= length (sentBatches tr) + length items + 1)%nat.
Proof.
  unfold queueTry, createMessageBatch. rewrite call_bind.
  destruct (faultAt br (length (calls tr))).
  { cbn [snd]. rewrite sentBatches_snoc_other by done. lia. }
  mrun. cbn [forOf]. rewrite bind_run.
  destruct (forEachMessage br _ items _) as [o1 tr1] eqn:Hloop.
  apply forEachMessage_count in Hloop. rewrite sentBatches_snoc_other in Hloop by done.
  destruct o1 as [b'|e1]; [|cbn [snd]; lia].
  unfold sendMessages. rewrite call_bind.
  assert (Hlen : length (sentBatches (tr1 ++ [Call (SendMessages b')]))
                 = S (length (sentBatches tr1)))
    by (rewrite sentBatches_snoc_send, length_app; cbn; lia).
  destruct (faultAt br _); [cbn [snd]; lia|].
  mrun. destruct (sentMessage _ _); [|cbn [snd]; lia].
  mrun. unfold senderClose. rewrite call_run.
  destruct (faultAt br _); cbn [snd];
    rewrite !sentBatches_snoc_other by done; lia.
Qed.
End BatchCount.

(** X7.  For a valid request with N messages, an invocation hands at most N + 1
    batches to [sendMessages], whatever the sizes, the capacities and the
    faults. *)
Theorem at_most_one_batch_more_than_messages (br : Broker) (env : Env) (req : HttpRequest)
        (queueName : option Json) (items : list Json) :
  validQueueRequest env req queueName items ->
  (length (sentBatches (run (queueMessages br env req)).2) <= length items + 1)%nat.
Proof.
  intros Hv. rewrite (queueMessages_valid br env req _ _ Hv).
  destruct (faultAt br 0); [cbn; lia|]. destruct (faultAt br 1); [cbn; lia|].
  rewrite sentBatches_finally.
  pose proof (queueTry_count br req queueName items (queueSetup env req queueName)) as H.
  exact H.
Qed.

Lemma at_most_one_batch_more_than_messages_witness :
  (length (sentBatches (run (queueMessages quietBroker sendEnv
                               (postRequest (queueBody [JNum 40; JNum 3])))).2)
   <= length [JNum 40; JNum 3] + 1)%nat.
Proof.
  apply (at_most_one_batch_more_than_messages quietBroker sendEnv
           (postRequest (queueBody [JNum 40; JNum 3])) (Some (JStr "q1"))).
  by split_and!.
Defined.

(** ** Packing is greedy *)

Lemma greedy_snoc (br : Broker) (bs : list Batch) (b : Batch) :
  greedy br bs ->
  (forall l, last bs = Some l -> spillsOver br l b) ->
  greedy br (bs ++ [b]).
Proof.
  intros Hbs Hlast i x y Hx Hy.
  destruct (decide (S i < length bs)%nat) as [Hlt|Hge].
  - rewrite lookup_app_l in Hx by lia. rewrite lookup_app_l in Hy by lia. eauto.
  - assert (Hi : S i = length bs).
    { apply lookup_lt_Some in Hy. rewrite length_app in Hy. cbn in Hy. lia. }
    rewrite lookup_app_l in Hx by lia.
    rewrite lookup_app_r in Hy by lia. rewrite Hi, Nat.sub_diag in Hy.
    injection Hy as <-. apply Hlast. rewrite last_lookup, <- Hi. exact Hx.
Qed.

Section Greedy.
Variable br : Broker.

(** The current batch is only sent when the next message does not fit it,
    and that message then opens the next batch. *)
Lemma forEachMessage_greedy (items : list Json) :
  forall (b : Batch) (tr tr' : Trace) (o : Outcome Batch),
    forEachMessage br b items tr = (o, tr') ->
    sizeInBytes b = batchLoad br b ->
    greedy br (sentBatches tr) ->
    (forall l, last (sentBatches tr) = Some l -> spillsOver br l b) ->
    greedy br (sentBatches tr') /\
    forall b', o = Ok b' ->
               sizeInBytes b' = batchLoad br b' /\
               forall l, last (sentBatches tr') = Some l -> spillsOver br l b'.
Proof.
  assert (Hadded : forall b added m,
             tryAddMessage (messageSize br) b m = (true, added) ->
             sizeInBytes b = batchLoad br b ->
             sizeInBytes added = batchLoad br added /\
             batchMessages added = batchMessages b ++ [m]).
  { unfold tryAddMessage, batchLoad. intros b added m H Hs.
    destruct (_ <=? _)%nat; [|discriminate]. injection H as <-. cbn.
    rewrite sum_list_with_app. cbn. split; [lia|done]. }
  induction items as [|x items IH]; intros b tr tr' o Hrun Hsize Hgreedy Hlast.
  - cbn in Hrun. injection Hrun as <- <-. split; [done|]. by intros ? [= <-].
  - cbn [forEachMessage] in Hrun.
    destruct (tryAddMessage (messageSize br) b x) as [[|] added] eqn:Hadd.
    + destruct (Hadded _ _ _ Hadd Hsize) as [Hs Hm].
      apply (IH _ _ _ _ Hrun Hs Hgreedy).
      intros l Hl. destruct (Hlast l Hl) as (m & rest & Hb & Hover).
      exists m, (rest ++ [x]). split; [by rewrite Hm, Hb | done].
    + apply tryAddMessage_false in Hadd. rewrite Hsize in Hadd.
      pose proof (greedy_snoc br _ b Hgreedy Hlast) as Hg1.
      rewrite <- sentBatches_snoc_send in Hg1.
      unfold sendMessages, createMessageBatch in Hrun. rewrite call_bind in Hrun.
      destruct (faultAt br (length (calls tr))).
      { injection Hrun as <- <-. split; [done|]. intros ? [=]. }
      rewrite call_bind in Hrun.
      assert (Hs2 : sentBatches ((tr ++ [Call (SendMessages b)]) ++ [Call CreateMessageBatch])
                    = sentBatches tr ++ [b]).
      { rewrite sentBatches_snoc_other by done. apply sentBatches_snoc_send. }
      assert (Hg2 : greedy br (sentBatches ((tr ++ [Call (SendMessages b)])
                                              ++ [Call CreateMessageBatch]))).
      { rewrite Hs2, <- sentBatches_snoc_send. exact Hg1. }
      destruct (faultAt br _).
      { injection Hrun as <- <-. split; [done|]. intros ? [=]. }
      destruct (tryAddMessage (messageSize br) (emptyBatch _) x) as [[|] added2] eqn:Hadd2.
      * destruct (Hadded _ _ _ Hadd2 eq_refl) as [Hs Hm]. cbn [emptyBatch batchMessages app] in Hm.
        apply (IH _ _ _ _ Hrun Hs Hg2).
        intros l Hl. rewrite Hs2, last_snoc in Hl. injection Hl as <-.
        exists x, []. by split.
      * cbn in Hrun. injection Hrun as <- <-. split; [done|]. intros ? [=].
Qed.

Lemma queueTry_greedy (req : HttpRequest) (queueName : option Json) (items : list Json)
      (tr : Trace) :
  sentBatches tr = [] ->
  greedy br (sentBatches (queueTry br req queueName (Some (JArr items)) tr).2).
Proof.
  intros Hnone.
  assert (Hnil : greedy br []) by (intros i b b' Hb; by rewrite lookup_nil in Hb).
  unfold queueTry, createMessageBatch. rewrite call_bind.
  destruct (faultAt br (length (calls tr))).
  { cbn [snd]. rewrite sentBatches_snoc_other, Hnone by done. exact Hnil. }
  mrun. cbn [forOf]. rewrite bind_run.
  destruct (forEachMessage br _ items _) as [o1 tr1] eqn:Hloop.
  apply forEachMessage_greedy in Hloop as [Hg Hok].
  - destruct o1 as [b'|e1]; [|done].
    destruct (Hok b' eq_refl) as [_ Hlast].
    pose proof (greedy_snoc br _ b' Hg Hlast) as Hg1.
    rewrite <- sentBatches_snoc_send in Hg1.
    unfold sendMessages. rewrite call_bind.
    destruct (faultAt br _); [done|].
    mrun. destruct (sentMessage _ _); [|done].
    mrun. unfold senderClose. rewrite call_run.
    destruct (faultAt br _); cbn [snd]; rewrite !sentBatches_snoc_other by done; done.
  - reflexivity.
  - rewrite sentBatches_snoc_other, Hnone by done. exact Hnil.
  - rewrite sentBatches_snoc_other, Hnone by done. by intros l.
Qed.
End Greedy.

(** X8.  However an invocation of the send path goes, between any two batches
    it hands to [sendMessages] one after the other, the later batch starts
    with a message that did not fit on top of what the earlier batch held:
    a batch is only sent on when the next message cannot be added to it. *)
Theorem batches_are_packed_greedily (br : Broker) (env : Env) (req : HttpRequest) :
  greedy br (sentBatches (run (queueMessages br env req)).2).
Proof.
  assert (Hnil : greedy br []) by (intros i b b' Hb; by rewrite lookup_nil in Hb).
  destruct (queueMessages_rejected br env req) as [(queueName & items & Hv)|[Hno _]].
  - rewrite (queueMessages_valid br env req _ _ Hv).
    destruct (faultAt br 0); [done|]. destruct (faultAt br 1); [done|].
    rewrite sentBatches_finally. by apply queueTry_greedy.
  - unfold sentBatches. by rewrite Hno.
Qed.

(** ** The receive path *)

Lemma completedMessages_received (env : Env) (req : HttpRequest) (n : number)
      (attempted : list ServiceBusReceivedMessage) (tail : Trace) :
  completedMessages tail = [] ->
  completedMessages (receiveSetup env req ++ Call (ReceiveMessages n 20000)
                       :: completions attempted ++ tail) = attempted.
Proof.
  intros Htail.
  change (Call (ReceiveMessages n 20000) :: completions attempted ++ tail)
    with ([Call (ReceiveMessages n 20000)] ++ completions attempted ++ tail).
  rewrite !completedMessages_app, completedMessages_completions, Htail.
  cbn. by rewrite app_nil_r.
Qed.

(** X9.  However an invocation of the receive path goes, the messages it hands
    to [completeMessage] are, in order, a prefix of the messages the broker
    delivered to its receive call: nothing is completed that was not
    received, nothing twice, nothing out of order. *)
Theorem completions_are_a_prefix_of_deliveries (br : Broker) (env : Env) (req : HttpRequest) :
  completedMessages (run (receiveMessages br env req)).2
  `prefix_of` deliver br 2 (requestedCount (req_query req !! "count")).
Proof.
  destruct (receiveMessages_rejected br env req) as [Hv|[Hno _]].
  - destruct (faultAt br 0) as [e0|] eqn:H0.
    { rewrite (receiveMessages_valid br env req Hv), H0. apply prefix_nil. }
    destruct (faultAt br 1) as [e1|] eqn:H1.
    { rewrite (receiveMessages_valid br env req Hv), H0, H1. apply prefix_nil. }
    destruct (receiveMessages_entered br env req Hv H0 H1)
      as (attempted & tail & -> & Hcases).
    rewrite completedMessages_received.
    + by destruct Hcases as [[-> _]|[(e & -> & _)|(e & Hpre & _)]].
    + by destruct Hcases as [[_ ->]|[(e & _ & ->)|(e & _ & ->)]].
  - unfold completedMessages. rewrite Hno. apply prefix_nil.
Qed.

Section Completing.
Variable br : Broker.

(** Without a fault the loop completes every message. *)
Lemma forEachReceived_quiet (received : list ServiceBusReceivedMessage) :
  forall (acc : list ReceiveResponseMessage) (tr : Trace),
    (forall i, (i < length received)%nat -> faultAt br (length (calls tr) + i) = None) ->
    forEachReceived br received acc tr =
    (Ok (acc ++ map project received), tr ++ completions received).
Proof.
  induction received as [|m rest IH]; intros acc tr Hq.
  - cbn. by rewrite !app_nil_r.
  - cbn [forEachReceived]. unfold completeMessage. rewrite call_bind.
    rewrite <- (Nat.add_0_r (length (calls tr))), (Hq 0%nat) by (cbn; lia).
    rewrite IH.
    + f_equal; by list_norm.
    + intros i Hi. rewrite calls_app, length_app. cbn [calls omap isCall length].
      specialize (Hq (S i)). rewrite <- Hq by (cbn; lia). f_equal. cbn. lia.
Qed.

End Completing.

(** X10.  On a broker that does not throw, a valid receive request is answered
    200 with the projections of all the messages delivered, in order
    (possibly none), and the request's headers, method and query echoed;
    every delivered message has been completed and the handler returns
    normally. *)
Theorem receive_succeeds_on_a_quiet_broker (br : Broker) (env : Env) (req : HttpRequest) :
  validReceiveRequest env req ->
  noFaults br ->
  let received := deliver br 2 (requestedCount (req_query req !! "count")) in
  (run (receiveMessages br env req)).1 = Ok tt /\
  finalRes (run (receiveMessages br env req)).2 =
  Some {| res_status := 200;
          res_headers := {[ "Content-Type" := "application/json" ]};
          res_body :=
            {| rb_status := 200;
               rb_message := None;
               rb_messages := Some (map project received);
               rb_request := EchoQuery (req_headers req) (req_method req) (req_query req) |} |} /\
  completedMessages (run (receiveMessages br env req)).2 = received.
Proof.
  intros Hv quiet received.
  rewrite (receiveMessages_valid br env req Hv), !quiet, tryCatchFinally_run.
  unfold receiveTry, sbReceiveMessages. rewrite call_bind, quiet.
  change (length (calls (receiveSetup env req))) with 2%nat. fold received.
  rewrite bind_run, forEachReceived_quiet by (intros; apply quiet).
  cbn [app]. mrun. unfold receiverClose. rewrite call_run, !quiet. cbn [fst snd].
  split_and!; [done | |].
  - rewrite finalRes_call, finalRes_call, finalRes_log. apply finalRes_snoc.
  - rewrite !completedMessages_app, completedMessages_completions. cbn.
    by rewrite !app_nil_r.
Qed.

Lemma receive_succeeds_on_a_quiet_broker_witness :
  let req := getRequest (receiveQuery "2") in
  let received := deliver stockedBroker 2 (requestedCount (req_query req !! "count")) in
  (run (receiveMessages stockedBroker receiveEnv req)).1 = Ok tt /\
  finalRes (run (receiveMessages stockedBroker receiveEnv req)).2 =
  Some {| res_status := 200;
          res_headers := {[ "Content-Type" := "application/json" ]};
          res_body :=
            {| rb_status := 200;
               rb_message := None;
               rb_messages := Some (map project received);
               rb_request := EchoQuery (req_headers req) (req_method req) (req_query req) |} |} /\
  completedMessages (run (receiveMessages stockedBroker receiveEnv req)).2 = received.
Proof.
  apply (receive_succeeds_on_a_quiet_broker stockedBroker receiveEnv
           (getRequest (receiveQuery "2"))); [by split | intros n; reflexivity].
Defined.



(** ** The responses a handler stores *)

Lemma storedResponses_app (tr1 tr2 : Trace) :
  storedResponses (tr1 ++ tr2) = storedResponses tr1 ++ storedResponses tr2.
Proof. apply omap_app. Qed.

Lemma storedResponses_completions (ms : list ServiceBusReceivedMessage) :
  storedResponses (completions ms) = [].
Proof. induction ms as [|m l IH]; [done | exact IH]. Qed.

(** How an invocation of the send path ends when validation does not
    pass: with the [TypeError] of the destructuring, or with one rejection
    logged and stored. *)
Lemma queueMessages_cases (br : Broker) (env : Env) (req : HttpRequest) :
  (exists e, run (queueMessages br env req) =
             (Throw e, [Log (LogRequestBody (req_method req) (req_body req))])) \/
  (exists r, run (queueMessages br env req) =
             (Ok tt, [Log (LogRequestBody (req_method req) (req_body req));
                      Log (LogResponse r); SetRes r]) /\
             exists message, r = createErrorResponse req message \/
                             r = createBadRequestResponse req message) \/
  (exists queueName items, validQueueRequest env req queueName items).
Proof.
  unfold run, queueMessages. mrun. cbn [app]. rewrite bind_run, validateQueueRequest_run.
  unfold validQueueRequest.
  destruct (destructureBody (req_body req)) as [[queueName messages]|e]; [|left; eauto].
  right.
  destruct (truthyStr (env !! sendEnvName)); cbn [negb];
    [|left; rewrite reject_run; eauto 6].
  destruct (truthy queueName) eqn:Hq; cbn [negb]; [|left; rewrite reject_run; eauto 6].
  destruct (truthy messages); cbn [negb]; [|left; rewrite reject_run; eauto 6].
  destruct messages as [[| | | |items|]|]; cbn [isArray negb];
    try (left; rewrite reject_run; eauto 6).
  right. by exists queueName, items.
Qed.

Lemma receiveMessages_cases (br : Broker) (env : Env) (req : HttpRequest) :
  (exists r, run (receiveMessages br env req) =
             (Ok tt, [Log (LogRequestQuery (req_method req) (req_query req));
                      Log (LogResponse r); SetRes r]) /\
             exists message, r = createErrorResponse req message \/
                             r = createBadRequestResponse req message) \/
  validReceiveRequest env req.
Proof.
  unfold run, receiveMessages, validateReceiveRequest, validReceiveRequest.
  mrun. cbn [app]. rewrite bind_run.
  destruct (truthyStr (env !! receiveEnvName)); cbn [negb];
    [|left; rewrite reject_run; eauto 6].
  destruct (truthyStr (req_query req !! "queueName")); cbn [negb];
    [|left; rewrite reject_run; eauto 6].
  by right.
Qed.

(** A property of responses that holds of each response the send path can
    build holds of every response an invocation stores. *)
Lemma queueMessages_stored (P : Response -> Prop) (br : Broker) (env : Env)
      (req : HttpRequest) :
  (forall message, P (createErrorResponse req message)) ->
  (forall message, P (createBadRequestResponse req message)) ->
  (forall message, P (queueOkResponse req message)) ->
  Forall P (storedResponses (run (queueMessages br env req)).2).
Proof.
  intros Herr Hbad Hok.
  destruct (queueMessages_cases br env req)
    as [[e ->]|[(r & -> & message & [->| ->])|(queueName & items & Hv)]];
    [constructor | by repeat constructor | by repeat constructor |].
  destruct (faultAt br 0) as [e0|] eqn:H0.
  { rewrite (queueMessages_valid br env req _ _ Hv), H0. constructor. }
  destruct (faultAt br 1) as [e1|] eqn:H1.
  { rewrite (queueMessages_valid br env req _ _ Hv), H0, H1. constructor. }
  destruct (queueMessages_entered br env req _ _ Hv H0 H1)
    as (ev & tail & -> & Hev & _ & Hcases).
  rewrite !storedResponses_app. unfold storedResponses at 2.
  rewrite (packing_no_setRes ev Hev).
  destruct Hcases
    as [(message & _ & _ & ->)|[(message & e & _ & _ & ->)|(e & rest & _ & ->)]];
    by repeat constructor.
Qed.

Lemma receiveMessages_stored (P : Response -> Prop) (br : Broker) (env : Env)
      (req : HttpRequest) :
  (forall message, P (createErrorResponse req message)) ->
  (forall message, P (createBadRequestResponse req message)) ->
  (forall messages, P (receiveOkResponse req messages)) ->
  Forall P (storedResponses (run (receiveMessages br env req)).2).
Proof.
  intros Herr Hbad Hok.
  destruct (receiveMessages_cases br env req) as [(r & -> & message & [->| ->])|Hv];
    [by repeat constructor | by repeat constructor |].
  destruct (faultAt br 0) as [e0|] eqn:H0.
  { rewrite (receiveMessages_valid br env req Hv), H0. constructor. }
  destruct (faultAt br 1) as [e1|] eqn:H1.
  { rewrite (receiveMessages_valid br env req Hv), H0, H1. constructor. }
  destruct (receiveMessages_entered br env req Hv H0 H1) as (attempted & tail & -> & Hcases).
  change (Call (ReceiveMessages (requestedCount (req_query req !! "count")) 20000)
            :: completions attempted ++ tail)
    with ([Call (ReceiveMessages (requestedCount (req_query req !! "count")) 20000)]
            ++ completions attempted ++ tail).
  rewrite !storedResponses_app.
  rewrite storedResponses_completions.
  destruct Hcases as [[_ ->]|[(e & _ & ->)|(e & _ & ->)]]; by repeat constructor.
Qed.

(** X12.  Every response the function assigns to [context.res], on any path and
    whatever the broker does, has the JSON content type, a status among
    200, 400, 405 and 500 that is repeated in its body, and echoes the
    request's own headers and method, with its body or its query. *)
Theorem every_response_is_an_envelope (br : Broker) (env : Env) (req : HttpRequest) :
  Forall (envelopeOf req) (storedResponses (run (httpTrigger br env req)).2).
Proof.
  assert (Hnot : Forall (envelopeOf req)
                   (storedResponses [Log (LogResponse (notAllowedResponse req));
                                     SetRes (notAllowedResponse req)])).
  { apply List.Forall_cons; [|apply List.Forall_nil]. unfold envelopeOf. cbn. tauto. }
  rewrite httpTrigger_run. destruct (req_method req) as [m|] eqn:Hm; [|exact Hnot].
  destruct (String.eqb m "GET"); [|destruct (String.eqb m "POST"); [|exact Hnot]].
  - apply receiveMessages_stored; intros; unfold envelopeOf; cbn; rewrite ?Hm; tauto.
  - apply queueMessages_stored; intros; unfold envelopeOf; cbn; rewrite ?Hm; tauto.
Qed.

(** X13.  An invocation that returns normally has stored a response: the only
    way to end without one is with an uncaught error. *)
Theorem returning_handler_has_stored_a_response (br : Broker) (env : Env)
        (req : HttpRequest) :
  (run (httpTrigger br env req)).1 = Ok tt ->
  exists r, finalRes (run (httpTrigger br env req)).2 = Some r.
Proof.
  rewrite httpTrigger_run. destruct (req_method req) as [m|]; [|by eexists].
  destruct (String.eqb m "GET"); [|destruct (String.eqb m "POST"); [|by eexists]].
  - destruct (receiveMessages_cases br env req) as [(r & -> & _)|Hv]; [by eexists|].
    destruct (faultAt br 0) as [e0|] eqn:H0.
    { by rewrite (receiveMessages_valid br env req Hv), H0. }
    destruct (faultAt br 1) as [e1|] eqn:H1.
    { by rewrite (receiveMessages_valid br env req Hv), H0, H1. }
    intros _.
    destruct (receiveMessages_entered br env req Hv H0 H1) as (attempted & tail & -> & Hcases).
    rewrite finalRes_received.
    destruct Hcases as [[_ ->]|[(e & _ & ->)|(e & _ & ->)]]; by eexists.
  - destruct (queueMessages_cases br env req)
      as [[e ->]|[(r & -> & _)|(queueName & items & Hv)]]; [done | by eexists |].
    destruct (faultAt br 0) as [e0|] eqn:H0.
    { by rewrite (queueMessages_valid br env req _ _ Hv), H0. }
    destruct (faultAt br 1) as [e1|] eqn:H1.
    { by rewrite (queueMessages_valid br env req _ _ Hv), H0, H1. }
    intros _.
    destruct (queueMessages_entered br env req _ _ Hv H0 H1)
      as (ev & tail & -> & Hev & _ & Hcases).
    rewrite !finalRes_app.
    destruct Hcases as [(message & _ & _ & ->)|[(message & e & _ & _ & ->)|(e & rest & _ & ->)]]; by eexists.
Qed.

Lemma returning_handler_has_stored_a_response_witness :
  exists r,
    finalRes (run (httpTrigger (faultyBroker 3) sendEnv
                     (postRequest (queueBody [JNum 1])))).2 = Some r.
Proof.
  apply (returning_handler_has_stored_a_response (faultyBroker 3) sendEnv
           (postRequest (queueBody [JNum 1]))).
  vm_compute. reflexivity.
Defined.

(** ** Closing the sender or the receiver *)





(** ** Responses: logged, and stored at most twice *)

(** The responses stored by the three endings of a [try] block that has
    been entered: the 200 alone, the 200 followed by the 500 of a failed
    close, or the 500 alone; each is logged. *)
Lemma stored_after_try (pre tail : Trace) (okr : Response) (errOf : exn -> Response)
      (closing : BrokerCall) (logged : list Event) :
  storedResponses pre = [] ->
  (tail = logged ++ [SetRes okr; Log (LogResponse okr); Call closing; Call ClientClose] \/
   (exists e, tail = logged ++ [SetRes okr; Log (LogResponse okr); Call closing;
                                Log (LogResponse (errOf e)); SetRes (errOf e);
                                Call ClientClose]) \/
   (exists e, tail = [Log (LogResponse (errOf e)); SetRes (errOf e); Call ClientClose])) ->
  storedResponses logged = [] ->
  (storedResponses (pre ++ tail) = [okr] \/
   (exists e, storedResponses (pre ++ tail) = [okr; errOf e]) \/
   (exists e, storedResponses (pre ++ tail) = [errOf e])) /\
  Forall (fun r => In (Log (LogResponse r)) (pre ++ tail)) (storedResponses (pre ++ tail)).
Proof.
  intros Hpre Hcases Hlogged.
  destruct Hcases as [->|[[e ->]|[e ->]]];
    rewrite !storedResponses_app, Hpre, ?Hlogged; cbn [app]; (split; [eauto|]).
  - apply List.Forall_cons; [|constructor].
    apply in_or_app. right. apply in_or_app. right. cbn. tauto.
  - apply List.Forall_cons; [|apply List.Forall_cons; [|constructor]];
      apply in_or_app; right; apply in_or_app; right; cbn; tauto.
  - apply List.Forall_cons; [|constructor]. apply in_or_app. right. cbn. tauto.
Qed.

Lemma stored_rejection (first : LogEntry) (r : Response) :
  storedShape [Log first; Log (LogResponse r); SetRes r] /\
  storedAreLogged [Log first; Log (LogResponse r); SetRes r].
Proof.
  split; [right; left; by exists r|].
  apply List.Forall_cons; [cbn; tauto | constructor].
Qed.

Lemma stored_entered (pre tail : Trace) (okr : Response) (errOf : exn -> Response)
      (closing : BrokerCall) (logged : list Event) :
  storedResponses pre = [] ->
  storedResponses logged = [] ->
  res_status okr = 200 ->
  (forall e, res_status (errOf e) = 500) ->
  (tail = logged ++ [SetRes okr; Log (LogResponse okr); Call closing; Call ClientClose] \/
   (exists e, tail = logged ++ [SetRes okr; Log (LogResponse okr); Call closing;
                                Log (LogResponse (errOf e)); SetRes (errOf e);
                                Call ClientClose]) \/
   (exists e, tail = [Log (LogResponse (errOf e)); SetRes (errOf e); Call ClientClose])) ->
  storedShape (pre ++ tail) /\ storedAreLogged (pre ++ tail).
Proof.
  intros Hpre Hlogged Hok Herr Hcases.
  destruct (stored_after_try pre tail okr errOf closing logged Hpre Hcases Hlogged)
    as [Hshape Hall].
  split; [|exact Hall]. unfold storedShape.
  destruct Hshape as [->|[[e ->]|[e ->]]]; eauto 8.
Qed.

(** X16.  An invocation assigns [context.res] at most twice, a second time only
    to replace a 200 response by a 500 one, and every response it assigns
    is also written to the log, on every path. *)
Theorem responses_stored_and_logged (br : Broker) (env : Env) (req : HttpRequest) :
  storedShape (run (httpTrigger br env req)).2 /\
  storedAreLogged (run (httpTrigger br env req)).2.
Proof.
  assert (Hnone : forall tr, storedResponses tr = [] -> storedShape tr /\ storedAreLogged tr).
  { intros tr H. split; [by left|]. unfold storedAreLogged. rewrite H. constructor. }
  assert (Hnot : storedShape [Log (LogResponse (notAllowedResponse req));
                              SetRes (notAllowedResponse req)] /\
                 storedAreLogged [Log (LogResponse (notAllowedResponse req));
                                  SetRes (notAllowedResponse req)]).
  { split; [right; left; by eexists|].
    apply List.Forall_cons; [cbn; tauto | constructor]. }
  rewrite httpTrigger_run. destruct (req_method req) as [m|]; [|exact Hnot].
  destruct (String.eqb m "GET"); [|destruct (String.eqb m "POST"); [|exact Hnot]].
  - destruct (receiveMessages_cases br env req) as [(r & -> & _)|Hv];
      [apply stored_rejection|].
    destruct (faultAt br 0) as [e0|] eqn:H0.
    { rewrite (receiveMessages_valid br env req Hv), H0. by apply Hnone. }
    destruct (faultAt br 1) as [e1|] eqn:H1.
    { rewrite (receiveMessages_valid br env req Hv), H0, H1. by apply Hnone. }
    destruct (receiveMessages_entered br env req Hv H0 H1) as (attempted & tail & -> & Hcases).
    set (n := requestedCount (req_query req !! "count")) in *.
    set (received := deliver br 2 n) in *.
    replace (receiveSetup env req ++ Call (ReceiveMessages n 20000)
               :: completions attempted ++ tail)
      with ((receiveSetup env req ++ Call (ReceiveMessages n 20000)
               :: completions attempted) ++ tail) by (by list_norm).
    apply (stored_entered _ tail (receiveOkResponse req (map project received))
             (fun e => createErrorResponse req (String_ e)) ReceiverClose
             [Log (LogMessages (map project received))]); try done.
    + change (Call (ReceiveMessages n 20000) :: completions attempted)
        with ([Call (ReceiveMessages n 20000)] ++ completions attempted).
      by rewrite !storedResponses_app, storedResponses_completions.
    + destruct Hcases as [[_ ->]|[(e & _ & ->)|(e & _ & ->)]]; eauto.
  - destruct (queueMessages_cases br env req)
      as [[e ->]|[(r & -> & _)|(queueName & items & Hv)]];
      [by apply Hnone | apply stored_rejection |].
    destruct (faultAt br 0) as [e0|] eqn:H0.
    { rewrite (queueMessages_valid br env req _ _ Hv), H0. by apply Hnone. }
    destruct (faultAt br 1) as [e1|] eqn:H1.
    { rewrite (queueMessages_valid br env req _ _ Hv), H0, H1. by apply Hnone. }
    destruct (queueMessages_entered br env req _ _ Hv H0 H1)
      as (ev & tail & -> & Hev & _ & Hcases).
    rewrite app_assoc.
    apply (stored_entered _ tail
             (queueOkResponse req match sentMessage queueName (Some (JArr items)) with
                                  | Ok text => text
                                  | Throw _ => ""
                                  end)
             (fun e => createErrorResponse req (String_ e)) SenderClose []); try done.
    + rewrite storedResponses_app. unfold storedResponses at 2.
      by rewrite (packing_no_setRes ev Hev).
    + destruct Hcases
        as [(message & -> & _ & ->)|[(message & e & -> & _ & ->)|(e & rest & _ & ->)]];
        eauto.
Qed.

(** ** Small requests take one batch *)

Section OneBatch.
Variable br : Broker.

(** Messages that together fit what is left of the current batch are all
    added to it, without a broker call. *)
Lemma forEachMessage_room (items : list Json) :
  forall (b : Batch) (tr : Trace),
    (sizeInBytes b + sum_list_with (messageSize br) items <= maxSizeInBytes b)%nat ->
    forEachMessage br b items tr =
    (Ok {| maxSizeInBytes := maxSizeInBytes b;
           sizeInBytes := (sizeInBytes b + sum_list_with (messageSize br) items)%nat;
           batchMessages := batchMessages b ++ items |}, tr).
Proof.
  induction items as [|x items IH]; intros b tr Hroom.
  - cbn. rewrite Nat.add_0_r, app_nil_r. by destruct b.
  - cbn [forEachMessage sum_list_with] in *. unfold tryAddMessage.
    assert (Hfit : (sizeInBytes b + messageSize br x <=? maxSizeInBytes b)%nat = true)
      by (apply Nat.leb_le; lia).
    rewrite Hfit, IH by (cbn; lia). cbn [maxSizeInBytes sizeInBytes batchMessages].
    do 2 f_equal. f_equal; [lia | by list_norm].
Qed.
End OneBatch.

(** X17.  For a valid request whose messages together fit the capacity of the
    first batch, once the client, the sender and that batch are created,
    exactly one batch is handed to [sendMessages], and it holds all the
    messages in order. *)
Theorem one_batch_when_all_fit_together (br : Broker) (env : Env) (req : HttpRequest)
        (queueName : option Json) (items : list Json) :
  validQueueRequest env req queueName items ->
  faultAt br 0 = None -> faultAt br 1 = None -> faultAt br 2 = None ->
  (sum_list_with (messageSize br) items <= capacityAt br 2)%nat ->
  sentBatches (run (queueMessages br env req)).2 =
  [{| maxSizeInBytes := capacityAt br 2;
      sizeInBytes := sum_list_with (messageSize br) items;
      batchMessages := items |}].
Proof.
  intros Hv H0 H1 H2 Hfit.
  rewrite (queueMessages_valid br env req _ _ Hv), H0, H1, sentBatches_finally.
  unfold queueTry, createMessageBatch. rewrite call_bind.
  change (length (calls (queueSetup env req queueName))) with 2%nat. rewrite H2. mrun.
  cbn [forOf]. rewrite bind_run, forEachMessage_room by (cbn; lia).
  cbn [emptyBatch maxSizeInBytes sizeInBytes batchMessages app Nat.add].
  unfold sendMessages. rewrite call_bind.
  case_fault; [cbn [snd]; by rewrite !sentBatches_app|].
  mrun. destruct (sentMessage _ _); [|cbn [snd]; by rewrite !sentBatches_app].
  mrun. unfold senderClose. rewrite call_run.
  case_fault; cbn [snd]; by rewrite !sentBatches_app.
Qed.

Lemma one_batch_when_all_fit_together_witness :
  sentBatches (run (queueMessages quietBroker sendEnv
                      (postRequest (queueBody [JNum 3; JNum 3; JNum 4])))).2 =
  [{| maxSizeInBytes := capacityAt quietBroker 2;
      sizeInBytes := sum_list_with (messageSize quietBroker) [JNum 3; JNum 3; JNum 4];
      batchMessages := [JNum 3; JNum 3; JNum 4] |}].
Proof.
  apply (one_batch_when_all_fit_together quietBroker sendEnv
           (postRequest (queueBody [JNum 3; JNum 3; JNum 4])) (Some (JStr "q1")));
    [by split_and! | reflexivity | reflexivity | reflexivity | cbn; lia].
Defined.
